(** * The provider registry of pkg/resource/deploy/providers/registry.go

    A shallow embedding of the registry: the provider map, the alias map,
    the plugin loader and the CRUD methods the registry implements as a
    meta-provider.  Calls that leave the package (the plugin host, the
    plugins themselves, the workspace, the UUID generator) are nodes of a
    program tree; an environment answers them and the run records them in a
    trace, so that statements about "what is called on whom, how often" are
    statements about that trace. *)

From Stdlib Require Import Ascii.
From stdpp Require Import gmap strings list pretty.

Set Default Proof Using "Type".
Set Warnings "-register-all".
Local Open Scope string_scope.

(** ** Data of the sdk packages the registry consumes *)

(** resource.URN, resource.ID, tokens.Package, tokens.Type and
    resource.PropertyKey are Go string types. *)
Abbreviation URN := string (only parsing).
Abbreviation ID := string (only parsing).
Abbreviation Package := string (only parsing).
Abbreviation TypeToken := string (only parsing).
Abbreviation PropertyKey := string (only parsing).

(** A loaded plugin is identified by its handle; a [plugin.Provider]
    interface value is either nil or such a handle. *)
Abbreviation Handle := nat (only parsing).
Abbreviation Provider := (option nat) (only parsing).

(** resource.PropertyValue, as far as the registry looks into it. *)
Inductive PropertyValue : Type :=
| NullProperty
| BoolProperty (b : bool)
| NumberProperty (n : Z)
| StringProperty (s : string)
| ArrayProperty (vs : list PropertyValue)
| ObjectProperty (fields : list (string * PropertyValue)).

Global Instance PropertyValue_eq_dec : EqDecision PropertyValue.
Proof.
  refine (fix go (x y : PropertyValue) {struct x} : Decision (x = y) :=
    match x, y with
    | NullProperty, NullProperty => left _
    | BoolProperty a, BoolProperty b => cast_if (decide (a = b))
    | NumberProperty a, NumberProperty b => cast_if (decide (a = b))
    | StringProperty a, StringProperty b => cast_if (decide (a = b))
    | ArrayProperty a, ArrayProperty b =>
        cast_if (@decide (a = b) (@list_eq_dec _ go a b))
    | ObjectProperty a, ObjectProperty b =>
        cast_if (@decide (a = b) (@list_eq_dec _ (@prod_eq_dec _ _ _ go) a b))
    | _, _ => right _
    end); abstract congruence.
Defined.

Definition IsString (v : PropertyValue) : bool :=
  match v with StringProperty _ => true | _ => false end.

Definition StringValue (v : PropertyValue) : string :=
  match v with StringProperty s => s | _ => "" end.

(** resource.PropertyMap is a Go map: nil, or a finite map.  Reading a nil
    map yields "absent". *)
Abbreviation PropertyMap := (option (gmap string PropertyValue)) (only parsing).

Definition pm_get (m : PropertyMap) (k : PropertyKey) : option PropertyValue :=
  match m with
  | Some kv => kv !! k
  | None => None
  end.

(** semver.Version of github.com/blang/semver. *)
Record Version : Type := mkVersion {
  Major : N;
  Minor : N;
  Patch : N;
  Pre : list string;
  Build : list string
}.

(** Go errors.  [wrapError] is what [fmt.Errorf] builds for a [%w] verb: it
    keeps the formatted message and the wrapped error. *)
Inductive error : Type :=
| errorString (msg : string)
| wrapError (msg : string) (err : error)
| MissingError (msg : string)
| InstallProviderError (Name : string) (Version_ : option Version)
    (PluginDownloadURL : string) (Err : error).

(** [errors.As(err, &me)] for a [workspace.MissingError] target: walk the
    Unwrap chain. *)
Fixpoint errors_As_MissingError (err : error) : bool :=
  match err with
  | errorString _ => false
  | wrapError _ inner => errors_As_MissingError inner
  | MissingError _ => true
  | InstallProviderError _ _ _ inner => errors_As_MissingError inner
  end.

(** plugin.CheckFailure *)
Record CheckFailure : Type := mkCheckFailure {
  Property : PropertyKey;
  Reason : string
}.

(** plugin.DiffChanges and plugin.DiffResult *)
Inductive DiffChanges : Type := DiffUnknown | DiffNone | DiffSome.

Record DiffResult : Type := mkDiffResult {
  Changes : DiffChanges;
  ReplaceKeys : list PropertyKey;
  StableKeys : list PropertyKey;
  ChangedKeys : list PropertyKey;
  DeleteBeforeReplace : bool
}.

Definition emptyDiffResult : DiffResult :=
  mkDiffResult DiffUnknown [] [] [] false.

Definition setChanges (d : DiffResult) (c : DiffChanges) : DiffResult :=
  mkDiffResult c (ReplaceKeys d) (StableKeys d) (ChangedKeys d) (DeleteBeforeReplace d).

(** resource.Status *)
Inductive Status : Type := StatusOK | StatusPartialFailure | StatusUnknown.

(** workspace.PluginSpec *)
Record PluginSpec : Type := mkPluginSpec {
  Kind : string;
  Name_ : string;
  SpecVersion : option Version;
  SpecPluginDownloadURL : string;
  Checksums : option (gmap string (list N))
}.

(** workspace.ResourcePlugin *)
Definition ResourcePlugin : string := "resource".

(** resource.State, as far as NewRegistry reads it. *)
Record State : Type := mkState {
  StateURN : URN;
  StateID : ID;
  Inputs : PropertyMap;
  StateProvider : string
}.

Global Instance Version_eq_dec : EqDecision Version.
Proof. solve_decision. Defined.
Global Instance error_eq_dec : EqDecision error.
Proof. solve_decision. Defined.
Global Instance DiffChanges_eq_dec : EqDecision DiffChanges.
Proof. solve_decision. Defined.
Global Instance CheckFailure_eq_dec : EqDecision CheckFailure.
Proof. solve_decision. Defined.

(** ** Provider references (reference.go) *)

(** Modelled from the spec: a [Reference] of reference.go, which is not part
    of this file's source, is an immutable (URN, ID) pair, compared by its
    two components. *)
Record Reference : Type := mkReference {
  ref_urn : URN;
  ref_id : ID
}.

Global Instance Reference_eq_dec : EqDecision Reference.
Proof. solve_decision. Defined.

Global Instance Reference_countable : Countable Reference :=
  inj_countable'
    (λ r, (ref_urn r, ref_id r))
    (λ p, mkReference p.1 p.2)
    (λ r, match r with mkReference _ _ => eq_refl end).

(** ** What the registry takes from other packages

    Pure functions of packages that are not part of this file's source:
    the URN and type-token helpers, the reference validation, the
    unknown-id sentinel, the semver parser and printer, deep equality of
    property maps and [DiffResult.Replace]. *)
Class Externals : Type := {
  (** [urn.Type()] *)
  URN_Type : URN → TypeToken;
  (** [providers.IsProviderType] *)
  IsProviderType : TypeToken → bool;
  (** [providers.GetProviderPackage] *)
  GetProviderPackage : TypeToken → Package;
  (** the shape check of [providers.NewReference], on the URN and the id *)
  validReference : URN → ID → bool;
  (** [providers.UnknownID] *)
  UnknownID : ID;
  (** [semver.ParseTolerant] *)
  ParseTolerant : string → Version + error;
  (** the [String] method of [semver.Version] *)
  Version_String : Version → string;
  (** [resource.PropertyMap.DeepEquals] *)
  DeepEquals : PropertyMap → PropertyMap → bool;
  (** [plugin.DiffResult.Replace] *)
  Replace : DiffResult → bool
}.

(** ** Programs over the outside world *)

(** The calls that leave the package, indexed by what they answer. *)
Inductive ExtCall : Type → Type :=
| HostProvider (pkg : Package) (version : option Version)
    : ExtCall (Provider * option error)
| HostCloseProvider (provider : Provider)
    : ExtCall (option error)
| PluginPkg (h : Handle)
    : ExtCall Package
| PluginCheckConfig (h : Handle) (urn : URN) (olds news : PropertyMap)
    (allowUnknowns : bool)
    : ExtCall (PropertyMap * list CheckFailure * option error)
| PluginDiffConfig (h : Handle) (urn : URN) (olds news : PropertyMap)
    (allowUnknowns : bool) (ignoreChanges : list string)
    : ExtCall (DiffResult * option error)
| PluginConfigure (h : Handle) (inputs : PropertyMap)
    : ExtCall (option error)
| GetLatestVersion (spec : PluginSpec)
    : ExtCall (option Version * option error)
| DownloadToFile (spec : PluginSpec)
    : ExtCall (string * option error)
| Install (spec : PluginSpec) (file : string) (reinstall : bool)
    : ExtCall (option error)
| UuidNewV4
    : ExtCall (string * option error).

(** A program returns, panics (a failed contract assertion or a nil
    dereference), or makes a call and goes on with the answer. *)
Inductive Prog (A : Type) : Type :=
| Ret (a : A)
| Panic (msg : string)
| Do {X : Type} (c : ExtCall X) (k : X → Prog A).

Arguments Ret {A} a.
Arguments Panic {A} msg.
Arguments Do {A X} c k.

Fixpoint bind {A B : Type} (m : Prog A) (f : A → Prog B) : Prog B :=
  match m with
  | Ret a => f a
  | Panic msg => Panic msg
  | Do c k => Do c (λ x, bind (k x) f)
  end.

Definition call {X : Type} (c : ExtCall X) : Prog X := Do c Ret.

Declare Scope prog_scope.
Notation "x ← y ; z" := (bind y (λ x : _, z))
  (at level 20, y at level 100, z at level 200, only parsing) : prog_scope.
Notation "' x ← y ; z" := (bind y (λ x : _, z))
  (at level 20, x pattern, y at level 100, z at level 200, only parsing)
  : prog_scope.
Open Scope prog_scope.

(** The trace of a run: each call with its answer. *)
Inductive Event : Type :=
| EvProvider (pkg : Package) (version : option Version)
    (res : Provider * option error)
| EvCloseProvider (provider : Provider) (res : option error)
| EvPkg (h : Handle) (res : Package)
| EvCheckConfig (h : Handle) (urn : URN) (olds news : PropertyMap)
    (allowUnknowns : bool)
    (res : PropertyMap * list CheckFailure * option error)
| EvDiffConfig (h : Handle) (urn : URN) (olds news : PropertyMap)
    (allowUnknowns : bool) (ignoreChanges : list string)
    (res : DiffResult * option error)
| EvConfigure (h : Handle) (inputs : PropertyMap) (res : option error)
| EvGetLatestVersion (spec : PluginSpec) (res : option Version * option error)
| EvDownloadToFile (spec : PluginSpec) (res : string * option error)
| EvInstall (spec : PluginSpec) (file : string) (reinstall : bool)
    (res : option error)
| EvUuidNewV4 (res : string * option error).

Definition event_of {X : Type} (c : ExtCall X) : X → Event :=
  match c in ExtCall X return X → Event with
  | HostProvider pkg version => EvProvider pkg version
  | HostCloseProvider p => EvCloseProvider p
  | PluginPkg h => EvPkg h
  | PluginCheckConfig h urn olds news au => EvCheckConfig h urn olds news au
  | PluginDiffConfig h urn olds news au ic => EvDiffConfig h urn olds news au ic
  | PluginConfigure h inputs => EvConfigure h inputs
  | GetLatestVersion spec => EvGetLatestVersion spec
  | DownloadToFile spec => EvDownloadToFile spec
  | Install spec file re => EvInstall spec file re
  | UuidNewV4 => EvUuidNewV4
  end.

(** How a run ends. *)
Inductive Outcome (A : Type) : Type :=
| Returned (a : A)
| Panicked (msg : string).

Arguments Returned {A} a.
Arguments Panicked {A} msg.

(** An environment answers every call from its own state. *)
Definition Env (World : Type) : Type := ∀ X : Type, ExtCall X → World → X * World.

Fixpoint run {World A : Type} (env : Env World) (p : Prog A) (w : World)
  : Outcome A * World * list Event :=
  match p with
  | Ret a => (Returned a, w, [])
  | Panic msg => (Panicked msg, w, [])
  | Do c k =>
      let '(x, w1) := env _ c w in
      let '(out, w2, tr) := run env (k x) w1 in
      (out, w2, event_of c x :: tr)
  end.

(** ** The contract package and nil receivers *)

(** Modelled from the spec: [contract.Failf] of sdk/go/common/util/contract,
    which is not part of this file's source.  A contract violation is fatal:
    it aborts with a descriptive assertion, and nothing after it runs. *)
Definition Failf (msg : string) : Prog unit := Panic msg.

(** Modelled from the spec: [contract.Assertf] of the same package aborts
    in the same way when its condition is false. *)
Definition Assertf (cond : bool) (msg : string) : Prog unit :=
  if cond then Ret () else Panic msg.

(** Modelled from the spec: [contract.Requiref] names the parameter whose
    requirement is violated. *)
Definition Requiref (cond : bool) (param msg : string) : Prog unit :=
  if cond then Ret () else Panic (param ++ ": " ++ msg).

(** A method call on a [plugin.Provider] interface value: on nil the Go
    runtime panics, otherwise the call goes to the plugin. *)
Definition on_plugin {X : Type} (provider : Provider) (c : Handle → ExtCall X)
  : Prog X :=
  match provider with
  | Some h => call (c h)
  | None => Panic "invalid memory address or nil pointer dereference"
  end.

(** Unused by the registry; kept so that the methods have their arity.  The
    [float64] timeout is never read and stands as a number of seconds. *)
Abbreviation float64 := Z (only parsing).
Inductive ConstructInfo : Type := mkConstructInfo.
Inductive ConstructOptions : Type := mkConstructOptions.
Inductive CallInfo : Type := mkCallInfo.
Inductive CallOptions : Type := mkCallOptions.

Record ConstructResult : Type := mkConstructResult {
  ConstructURN : URN;
  ConstructOutputs : PropertyMap
}.

Record CallResult : Type := mkCallResult {
  Return : PropertyMap;
  Failures : list CheckFailure
}.

Record ReadResult : Type := mkReadResult {
  ReadID : ID;
  ReadInputs : PropertyMap;
  ReadOutputs : PropertyMap
}.

Record PluginInfo : Type := mkPluginInfo {
  InfoName : string;
  InfoPath : string;
  InfoKind : string;
  InfoVersion : option Version
}.

(** ** The registry *)

(** [Registry]: the host is the environment of the run, and the mutex [m]
    has no sequential content. *)
Record Registry : Type := mkRegistry {
  isPreview : bool;
  providers : gmap Reference Provider;
  builtins : Provider;
  aliases : gmap string string
}.

Definition with_providers (r : Registry) (ps : gmap Reference Provider)
  : Registry :=
  mkRegistry (isPreview r) ps (builtins r) (aliases r).

Definition with_aliases (r : Registry) (al : gmap string string) : Registry :=
  mkRegistry (isPreview r) (providers r) (builtins r) al.

Definition versionKey : PropertyKey := "version".
Definition pluginDownloadKey : PropertyKey := "pluginDownloadURL".

Section Model.
Context `{Ext : Externals}.

(** The [Error] method of the error values above. *)
Fixpoint Error (err : error) : string :=
  match err with
  | errorString msg => msg
  | wrapError msg _ => msg
  | MissingError msg => msg
  | InstallProviderError name version url inner =>
      let server := if decide (url = "") then "" else " --server " ++ url in
      match version with
      | Some v =>
          "Could not automatically download and install " ++ ResourcePlugin
          ++ " plugin 'pulumi-" ++ ResourcePlugin ++ "-" ++ name ++ "'"
          ++ " at version v" ++ Version_String v
          ++ ", install the plugin using `pulumi plugin install "
          ++ ResourcePlugin ++ " " ++ name ++ " v" ++ Version_String v
          ++ server ++ "`: " ++ Error inner
      | None =>
          "Could not automatically download and install " ++ ResourcePlugin
          ++ " plugin 'pulumi-" ++ ResourcePlugin ++ "-" ++ name ++ "'"
          ++ ", install the plugin using `pulumi plugin install "
          ++ ResourcePlugin ++ " " ++ name ++ server ++ "`: " ++ Error inner
      end
  end.

(** [InstallProviderError.Unwrap], and [Unwrap] of a [%w] error. *)
Definition Unwrap (err : error) : option error :=
  match err with
  | wrapError _ inner => Some inner
  | InstallProviderError _ _ _ inner => Some inner
  | _ => None
  end.

(** Modelled from the spec: [NewReference] and [mustNewReference] of
    reference.go, which is not part of this file's source.  The constructor
    validates the shape of the URN and the id, and [mustNewReference] panics
    on a violation. *)
Definition mustNewReference (urn : URN) (id : ID) : Prog Reference :=
  if validReference urn id then Ret (mkReference urn id)
  else Panic "contract assertion failed: invalid provider reference".

(** Modelled from the spec: the canonical form of a reference is
    [<urn>::<id>]. *)
Definition Reference_String (ref : Reference) : string :=
  ref_urn ref ++ "::" ++ ref_id ref.

(** Writing to a nil map panics in Go. *)
Definition SetProviderURL (inputs : PropertyMap) (value : string)
  : Prog PropertyMap :=
  match inputs with
  | Some kv => Ret (Some (<[pluginDownloadKey := StringProperty value]> kv))
  | None => Panic "assignment to entry in nil map"
  end.

Definition GetProviderDownloadURL (inputs : PropertyMap)
  : string * option error :=
  match pm_get inputs pluginDownloadKey with
  | None => ("", None)
  | Some url =>
      if negb (IsString url)
      then ("", Some (errorString ("'" ++ pluginDownloadKey ++ "' must be a string")))
      else (StringValue url, None)
  end.

(** The version is a pointer: [value.String()] on nil panics. *)
Definition SetProviderVersion (inputs : PropertyMap) (value : option Version)
  : Prog PropertyMap :=
  match value with
  | None => Panic "invalid memory address or nil pointer dereference"
  | Some v =>
      match inputs with
      | Some kv =>
          Ret (Some (<[versionKey := StringProperty (Version_String v)]> kv))
      | None => Panic "assignment to entry in nil map"
      end
  end.

Definition GetProviderVersion (inputs : PropertyMap)
  : option Version * option error :=
  match pm_get inputs versionKey with
  | None => (None, None)
  | Some version =>
      if negb (IsString version)
      then (None, Some (errorString ("'" ++ versionKey ++ "' must be a string")))
      else
        match ParseTolerant (StringValue version) with
        | inr err =>
            (None, Some (errorString
                           ("could not parse provider version: " ++ Error err)))
        | inl sv => (Some sv, None)
        end
  end.

(** The download progress and retry observers of [loadProvider] are closures
    handed to [workspace.DownloadToFile]; whether and when they log is the
    workspace's business and part of that call. *)
Definition loadProvider (pkg : Package) (version : option Version)
  (downloadURL : string) (checksums : option (gmap string (list N)))
  (builtins : Provider) : Prog (Provider * option error) :=
  isBuiltin ← match builtins with
              | None => Ret false
              | Some b => p ← call (PluginPkg b); Ret (bool_decide (pkg = p))
              end;
  if (isBuiltin : bool) then Ret (builtins, None) else
  '(provider, err) ← call (HostProvider pkg version);
  match err with
  | None => Ret (provider, None)
  | Some err =>
      if negb (errors_As_MissingError err) then Ret (None, Some err) else
      let pluginSpec := mkPluginSpec ResourcePlugin pkg version downloadURL checksums in
      resolved ←
        match SpecVersion pluginSpec with
        | Some _ => Ret (inl pluginSpec)
        | None =>
            '(latest, err) ← call (GetLatestVersion pluginSpec);
            match err with
            | Some err =>
                Ret (inr (wrapError
                            ("could not find latest version for provider "
                             ++ Name_ pluginSpec ++ ": " ++ Error err) err))
            | None =>
                Ret (inl (mkPluginSpec ResourcePlugin pkg latest downloadURL checksums))
            end
        end;
      match resolved with
      | inr err => Ret (None, Some err)
      | inl pluginSpec =>
          '(downloadedFile, err) ← call (DownloadToFile pluginSpec);
          match err with
          | Some err =>
              Ret (None, Some (InstallProviderError pkg version downloadURL
                     (wrapError ("error downloading provider "
                                 ++ Name_ pluginSpec ++ " to file: " ++ Error err) err)))
          | None =>
              err ← call (Install pluginSpec downloadedFile false);
              match err with
              | Some err =>
                  Ret (None, Some (InstallProviderError pkg version downloadURL
                         (wrapError ("error installing provider "
                                     ++ Name_ pluginSpec ++ ": " ++ Error err) err)))
              | None => call (HostProvider pkg version)
              end
          end
      end
  end.

Definition GetProvider (r : Registry) (ref : Reference) : Provider * bool :=
  match providers r !! ref with
  | Some provider => (provider, true)
  | None => (None, false)
  end.

Definition setProvider (r : Registry) (ref : Reference) (provider : Provider)
  : Prog Registry :=
  let r := with_providers r (<[ref := provider]> (providers r)) in
  match aliases r !! ref_urn ref with
  | Some alias =>
      aliasRef ← mustNewReference alias (ref_id ref);
      Ret (with_providers r (<[aliasRef := provider]> (providers r)))
  | None => Ret r
  end.

Definition deleteProvider (r : Registry) (ref : Reference)
  : (Provider * bool) * Registry :=
  match providers r !! ref with
  | None => ((None, false), r)
  | Some provider => ((provider, true), with_providers r (delete ref (providers r)))
  end.

(** [NewRegistry]: the loop over the old resources, one step per resource,
    on the registry built so far. *)
Fixpoint NewRegistry_loop (prev : list State) (r : Registry)
  : Prog (option Registry * option error) :=
  match prev with
  | [] => Ret (Some r, None)
  | res :: prev =>
      let urn := StateURN res in
      if negb (IsProviderType (URN_Type urn)) then NewRegistry_loop prev r else
      if bool_decide (StateID res = "") || bool_decide (StateID res = UnknownID)
      then Ret (None, Some (errorString ("provider '" ++ urn ++ "' has an unknown ID")))
      else
      ref ← mustNewReference urn (StateID res);
      if snd (GetProvider r ref)
      then Ret (None, Some (errorString
                  ("duplicate provider found in old state: '"
                   ++ Reference_String ref ++ "'")))
      else
      let providerPkg := GetProviderPackage (URN_Type urn) in
      let '(version, err) := GetProviderVersion (Inputs res) in
      match err with
      | Some err =>
          Ret (None, Some (errorString
                 ("could not parse version for " ++ providerPkg ++ " provider '"
                  ++ urn ++ "': " ++ Error err)))
      | None =>
      let '(downloadURL, err) := GetProviderDownloadURL (Inputs res) in
      match err with
      | Some err =>
          Ret (None, Some (errorString
                 ("could not parse download URL for " ++ providerPkg
                  ++ " provider '" ++ urn ++ "': " ++ Error err)))
      | None =>
      '(provider, err) ← loadProvider providerPkg version downloadURL None (builtins r);
      match err with
      | Some err =>
          Ret (None, Some (errorString
                 ("could not load plugin for " ++ providerPkg ++ " provider '"
                  ++ urn ++ "': " ++ Error err)))
      | None =>
      match provider with
      | None =>
          Ret (None, Some (errorString
                 ("could not find plugin for " ++ providerPkg ++ " provider '"
                  ++ urn ++ "' at version "
                  ++ from_option Version_String "<nil>" version)))
      | Some h =>
          err ← call (PluginConfigure h (Inputs res));
          match err with
          | Some err =>
              closeErr ← call (HostCloseProvider provider);
              Ret (None, Some (errorString
                     ("could not configure provider '" ++ urn ++ "': "
                      ++ Error err)))
          | None =>
              NewRegistry_loop prev
                (with_providers r (<[ref := provider]> (providers r)))
          end
      end
      end
      end
      end
  end.

Definition NewRegistry (prev : list State) (isPreview : bool)
  (builtins : Provider) : Prog (option Registry * option error) :=
  NewRegistry_loop prev (mkRegistry isPreview ∅ builtins ∅).

(** *** The [plugin.Provider] methods of the registry *)

Definition Close (r : Registry) : option error := None.

Definition Pkg (r : Registry) : Package := "pulumi".

Definition label (r : Registry) : string := "ProviderRegistry".

Definition GetSchema (r : Registry) (version : Z)
  : Prog (option (list N) * option error) :=
  _ ← Failf "GetSchema must not be called on the provider registry";
  Ret (None, Some (errorString "the provider registry has no schema")).

Definition GetMapping (r : Registry) (key : string)
  : Prog (option (list N) * string * option error) :=
  _ ← Failf "GetMapping must not be called on the provider registry";
  Ret (None, "", Some (errorString "the provider registry has no mappings")).

Definition CheckConfig (r : Registry) (urn : URN) (olds news : PropertyMap)
  (allowUnknowns : bool)
  : Prog (PropertyMap * list CheckFailure * option error) :=
  _ ← Failf "CheckConfig must not be called on the provider registry";
  Ret (None, [], Some (errorString "the provider registry is not configurable")).

Definition DiffConfig (r : Registry) (urn : URN) (olds news : PropertyMap)
  (allowUnknowns : bool) (ignoreChanges : list string)
  : Prog (DiffResult * option error) :=
  _ ← Failf "DiffConfig must not be called on the provider registry";
  Ret (emptyDiffResult,
       Some (errorString "the provider registry is not configurable")).

Definition Configure (r : Registry) (props : PropertyMap)
  : Prog (option error) :=
  _ ← Failf "Configure must not be called on the provider registry";
  Ret (Some (errorString "the provider registry is not configurable")).

Definition Check (r : Registry) (urn : URN) (olds news : PropertyMap)
  (allowUnknowns : bool) (randomSeed : list N)
  : Prog ((PropertyMap * list CheckFailure * option error) * Registry) :=
  _ ← Requiref (IsProviderType (URN_Type urn)) "urn"
        ("must be a provider type, got " ++ URN_Type urn);
  let '(version, err) := GetProviderVersion news in
  match err with
  | Some err => Ret ((None, [mkCheckFailure "version" (Error err)], None), r)
  | None =>
  let '(downloadURL, err) := GetProviderDownloadURL news in
  match err with
  | Some err =>
      Ret ((None, [mkCheckFailure "pluginDownloadURL" (Error err)], None), r)
  | None =>
  '(provider, err) ← loadProvider (GetProviderPackage (URN_Type urn)) version
                        downloadURL None (builtins r);
  match err with
  | Some err => Ret ((None, [], Some err), r)
  | None =>
  match provider with
  | None => Ret ((None, [], Some (errorString "could not find plugin")), r)
  | Some h =>
      '(inputs, failures, err) ←
        call (PluginCheckConfig h urn olds news allowUnknowns);
      if negb (bool_decide (length failures = 0)) || bool_decide (err ≠ None)
      then
        closeErr ← call (HostCloseProvider provider);
        Ret ((None, failures, err), r)
      else
        ref ← mustNewReference urn UnknownID;
        r ← setProvider r ref provider;
        Ret ((inputs, [], None), r)
  end
  end
  end
  end.

Definition RegisterAlias (r : Registry) (providerURN alias : URN) : Registry :=
  if decide (providerURN ≠ alias)
  then with_aliases r (<[providerURN := alias]> (aliases r))
  else r.

Definition Diff (r : Registry) (urn : URN) (id : ID) (olds news : PropertyMap)
  (allowUnknowns : bool) (ignoreChanges : list string)
  : Prog ((DiffResult * option error) * Registry) :=
  _ ← Requiref (bool_decide (id ≠ "")) "id" "must not be empty";
  ref ← mustNewReference urn UnknownID;
  let '(provider, ok) := GetProvider r ref in
  if negb ok then
    ref ← mustNewReference urn id;
    let '(provider, ok) := GetProvider r ref in
    _ ← Assertf ok ("Provider must have been registered by NewRegistry for DBR Diff ("
                    ++ urn ++ "::" ++ id ++ ")");
    '(diff, err) ← on_plugin provider
                     (λ h, PluginDiffConfig h urn olds news allowUnknowns ignoreChanges);
    match err with
    | Some err => Ret ((emptyDiffResult, Some err), r)
    | None => Ret ((diff, None), r)
    end
  else
    '(diff, err) ← on_plugin provider
                     (λ h, PluginDiffConfig h urn olds news allowUnknowns ignoreChanges);
    match err with
    | Some err => Ret ((emptyDiffResult, Some err), r)
    | None =>
        let diff :=
          if bool_decide (Changes diff = DiffUnknown)
          then if DeepEquals olds news
               then setChanges diff DiffNone
               else setChanges diff DiffSome
          else diff in
        _ ← (if Replace diff
             then closeErr ← call (HostCloseProvider provider); Ret ()
             else Ret ());
        Ret ((diff, None), r)
    end.

Definition Same (r : Registry) (ref : Reference) : Prog Registry :=
  match aliases r !! ref_urn ref with
  | Some alias =>
      aliasRef ← mustNewReference alias (ref_id ref);
      Ret (with_providers r
             (<[ref := default None (providers r !! aliasRef)]> (providers r)))
  | None => Ret r
  end.

Definition Create (r : Registry) (urn : URN) (news : PropertyMap)
  (timeout : float64) (preview : bool)
  : Prog ((ID * PropertyMap * Status * option error) * Registry) :=
  ref ← mustNewReference urn UnknownID;
  let '(provider, ok) := GetProvider r ref in
  _ ← Assertf ok ("'Check' must be called before 'Create' (" ++ urn ++ ")");
  err ← on_plugin provider (λ h, PluginConfigure h news);
  match err with
  | Some err => Ret (("", None, StatusOK, Some err), r)
  | None =>
      generated ←
        (if negb preview then
           '(uuid, err) ← call UuidNewV4;
           match err with
           | Some err => Ret (inr err)
           | None =>
               _ ← Assertf (bool_decide (uuid ≠ UnknownID))
                     "resource ID must not be unknown";
               Ret (inl uuid)
           end
         else Ret (inl ""));
      match generated with
      | inr err => Ret (("", None, StatusOK, Some err), r)
      | inl id =>
          ref ← mustNewReference urn id;
          r ← setProvider r ref provider;
          Ret ((id, news, StatusOK, None), r)
      end
  end.

Definition Update (r : Registry) (urn : URN) (id : ID) (olds news : PropertyMap)
  (timeout : float64) (ignoreChanges : list string) (preview : bool)
  : Prog ((PropertyMap * Status * option error) * Registry) :=
  ref ← mustNewReference urn UnknownID;
  let '(provider, ok) := GetProvider r ref in
  _ ← Assertf ok ("'Check' and 'Diff' must be called before 'Update' ("
                  ++ urn ++ ")");
  err ← on_plugin provider (λ h, PluginConfigure h news);
  match err with
  | Some err => Ret ((None, StatusUnknown, Some err), r)
  | None =>
      ref ← mustNewReference urn id;
      r ← setProvider r ref provider;
      Ret ((news, StatusOK, None), r)
  end.

Definition Delete (r : Registry) (urn : URN) (id : ID) (props : PropertyMap)
  (timeout : float64) : Prog ((Status * option error) * Registry) :=
  _ ← Assertf (negb (isPreview r)) "Delete must not be called during preview";
  ref ← mustNewReference urn id;
  let '((provider, has), r) := deleteProvider r ref in
  _ ← Assertf has ("could not find provider to delete ("
                   ++ Reference_String ref ++ ")");
  closeErr ← call (HostCloseProvider provider);
  Ret ((StatusOK, None), r).

Definition Read (r : Registry) (urn : URN) (id : ID)
  (inputs state : PropertyMap) : ReadResult * Status * option error :=
  (mkReadResult "" None None, StatusUnknown,
   Some (errorString "provider resources may not be read")).

Definition Construct (r : Registry) (info : ConstructInfo) (typ : TypeToken)
  (name : string) (parent : URN) (inputs : PropertyMap)
  (options : ConstructOptions) : Prog (ConstructResult * option error) :=
  Ret (mkConstructResult "" None,
       Some (errorString "provider resources may not be constructed")).

Definition Invoke (r : Registry) (tok : string) (args : PropertyMap)
  : Prog (PropertyMap * list CheckFailure * option error) :=
  _ ← Failf "Invoke must not be called on the provider registry";
  Ret (None, [], Some (errorString "the provider registry is not invokable")).

Definition StreamInvoke (r : Registry) (tok : string) (args : PropertyMap)
  : list CheckFailure * option error :=
  ([], Some (errorString
               "the provider registry does not implement streaming invokes")).

Definition Call (r : Registry) (tok : string) (args : PropertyMap)
  (info : CallInfo) (options : CallOptions) : Prog (CallResult * option error) :=
  _ ← Failf "Call must not be called on the provider registry";
  Ret (mkCallResult None [],
       Some (errorString "the provider registry is not callable")).

Definition GetPluginInfo (r : Registry) : Prog (PluginInfo * option error) :=
  Ret (mkPluginInfo "" "" "" None,
       Some (errorString "the provider registry does not report plugin info")).

Definition SignalCancellation (r : Registry) : option error := None.

End Model.

(** ** Sequences of registry operations *)

(** The operations the engine drives the registry with. *)
Inductive Op : Type :=
| OpCheck (urn : URN) (olds news : PropertyMap) (allowUnknowns : bool)
    (randomSeed : list N)
| OpRegisterAlias (providerURN alias : URN)
| OpDiff (urn : URN) (id : ID) (olds news : PropertyMap)
    (allowUnknowns : bool) (ignoreChanges : list string)
| OpSame (ref : Reference)
| OpCreate (urn : URN) (news : PropertyMap) (timeout : float64) (preview : bool)
| OpUpdate (urn : URN) (id : ID) (olds news : PropertyMap) (timeout : float64)
    (ignoreChanges : list string) (preview : bool)
| OpDelete (urn : URN) (id : ID) (props : PropertyMap) (timeout : float64).

Section Sequences.
Context `{Ext : Externals}.

(** One operation on the registry, its results dropped. *)
Definition exec_op (op : Op) (r : Registry) : Prog Registry :=
  match op with
  | OpCheck urn olds news au seed =>
      '(_, r) ← Check r urn olds news au seed; Ret r
  | OpRegisterAlias providerURN alias => Ret (RegisterAlias r providerURN alias)
  | OpDiff urn id olds news au ic =>
      '(_, r) ← Diff r urn id olds news au ic; Ret r
  | OpSame ref => Same r ref
  | OpCreate urn news timeout preview =>
      '(_, r) ← Create r urn news timeout preview; Ret r
  | OpUpdate urn id olds news timeout ic preview =>
      '(_, r) ← Update r urn id olds news timeout ic preview; Ret r
  | OpDelete urn id props timeout =>
      '(_, r) ← Delete r urn id props timeout; Ret r
  end.

(** The operations one after the other; a panic ends the sequence. *)
Fixpoint exec_ops (ops : list Op) (r : Registry) : Prog Registry :=
  match ops with
  | [] => Ret r
  | op :: ops => r ← exec_op op r; exec_ops ops r
  end.

End Sequences.

(** ** Reading a trace *)

(** The provider a [host.CloseProvider] call was made on. *)
Definition closed_provider (e : Event) : option Provider :=
  match e with
  | EvCloseProvider p _ => Some p
  | _ => None
  end.

(** The handles closed along a trace, in order, with repetitions. *)
Definition closed_handles (tr : list Event) : list Handle :=
  omap (λ e, match e with EvCloseProvider (Some h) _ => Some h | _ => None end) tr.

(** How often [host.CloseProvider] was called on handle [h]. *)
Definition close_count (h : Handle) (tr : list Event) : nat :=
  length (filter (λ h', h' = h) (closed_handles tr)).

(** The handle a configuration RPC ([CheckConfig], [DiffConfig],
    [Configure]) was sent to. *)
Definition rpc_handle (e : Event) : option Handle :=
  match e with
  | EvCheckConfig h _ _ _ _ _ => Some h
  | EvDiffConfig h _ _ _ _ _ _ => Some h
  | EvConfigure h _ _ => Some h
  | _ => None
  end.

(** Whether some configuration RPC of [tr] goes to a handle that was closed
    before it, [closed] being the handles closed before [tr] starts. *)
Fixpoint use_after_close (closed : list Handle) (tr : list Event) : bool :=
  match tr with
  | [] => false
  | e :: tr =>
      match rpc_handle e with
      | Some h => bool_decide (h ∈ closed)
      | None => false
      end
      || use_after_close (closed ++ closed_handles [e]) tr
  end.

(** Calls the plugin loader makes: the builtin's package probe, the host's
    lookup, and the workspace's resolution, download and install. *)
Definition is_loader_call (e : Event) : bool :=
  match e with
  | EvPkg _ _ | EvProvider _ _ _ | EvGetLatestVersion _ _
  | EvDownloadToFile _ _ | EvInstall _ _ _ _ => true
  | _ => false
  end.

(** Version resolution, download and install: the auto-install path. *)
Definition is_install_call (e : Event) : bool :=
  match e with
  | EvGetLatestVersion _ _ | EvDownloadToFile _ _ | EvInstall _ _ _ _ => true
  | _ => false
  end.

(** The providers, nil included, [host.CloseProvider] was called on. *)
Definition closes (tr : list Event) : list Provider := omap closed_provider tr.

(** The answers of the [host.Provider] calls of a trace, in order. *)
Definition provider_answers (tr : list Event) : list (Provider * option error) :=
  omap (λ e, match e with EvProvider _ _ res => Some res | _ => None end) tr.

(** The trace of a run, and its outcome. *)
Definition trace_of {World A : Type} (env : Env World) (p : Prog A) (w : World)
  : list Event := (run env p w).2.

Definition outcome_of {World A : Type} (env : Env World) (p : Prog A) (w : World)
  : Outcome A := (run env p w).1.1.

Definition returns {A : Type} (o : Outcome A) : bool :=
  match o with Returned _ => true | Panicked _ => false end.

Section Discipline.
Context `{Ext : Externals} {World : Type} (env : Env World).

(** Whether, along the run of [ops] from [r] and [w], every [Delete] finds
    under its reference a handle that has not been closed yet; [closed] are
    the handles closed before the run starts. *)
Fixpoint deletes_live (closed : list Handle) (ops : list Op) (r : Registry)
  (w : World) : bool :=
  match ops with
  | [] => true
  | op :: ops =>
      match op with
      | OpDelete urn id _ _ =>
          match providers r !! mkReference urn id with
          | Some (Some h) => bool_decide (h ∉ closed)
          | _ => true
          end
      | _ => true
      end
      && match run env (exec_op op r) w with
         | (Returned r', w', tr) =>
             deletes_live (closed ++ closed_handles tr) ops r' w'
         | (Panicked _, _, _) => true
         end
  end.



(** A [DiffUnknown] answer of the plugin's [DiffConfig] comes back from
    [Diff] as [DiffNone] when the old and new inputs are deeply equal and as
    [DiffSome] otherwise. *)
Definition diff_normalizes (r : Registry) (w : World) (urn : URN) (id : ID)
  (olds news : PropertyMap) (allowUnknowns : bool)
  (ignoreChanges : list string) : Prop :=
  ∀ h d,
    EvDiffConfig h urn olds news allowUnknowns ignoreChanges (d, None)
      ∈ trace_of env (Diff r urn id olds news allowUnknowns ignoreChanges) w →
    Changes d = DiffUnknown →
    ∃ d' r',
      outcome_of env (Diff r urn id olds news allowUnknowns ignoreChanges) w
        = Returned ((d', None), r')
      ∧ Changes d' = if DeepEquals olds news then DiffNone else DiffSome.

End Discipline.

(** The alias recorded for [urn], if any, makes a valid reference with
    [id]. *)
Definition alias_valid `{Ext : Externals} (r : Registry) (urn : URN) (id : ID)
  : Prop :=
  ∀ O, aliases r !! urn = Some O → validReference O id = true.

(** A method refuses when calling it is a contract violation: it aborts
    instead of returning anything, an error value included. *)
Definition refuses {A : Type} (p : Prog A) : Prop := ∃ msg, p = Panic msg.

(** The seven methods that call [contract.Failf] refuse, whatever their
    arguments. *)
Definition seven_refused (r : Registry) : Prop :=
  (∀ version, refuses (GetSchema r version))
  ∧ (∀ key, refuses (GetMapping r key))
  ∧ (∀ urn olds news au, refuses (CheckConfig r urn olds news au))
  ∧ (∀ urn olds news au ic, refuses (DiffConfig r urn olds news au ic))
  ∧ (∀ props, refuses (Configure r props))
  ∧ (∀ tok args, refuses (Invoke r tok args))
  ∧ (∀ tok args info options, refuses (Call r tok args info options)).

(** All nine methods the registry is to refuse do so. *)
Definition all_refused (r : Registry) : Prop :=
  seven_refused r
  ∧ (∀ info typ name parent inputs options,
        refuses (Construct r info typ name parent inputs options))
  ∧ refuses (GetPluginInfo r).

(** ** Further readings of the model *)

(** The plugin specification [loadProvider] hands to the workspace carries
    the package, the download URL and the checksums it was given. *)
Definition spec_for (pkg : Package) (downloadURL : string)
  (checksums : option (gmap string (list N))) (spec : PluginSpec) : Prop :=
  Kind spec = ResourcePlugin ∧ Name_ spec = pkg
  ∧ SpecPluginDownloadURL spec = downloadURL ∧ Checksums spec = checksums.

(** The reference an old resource is registered under. *)
Definition state_ref (res : State) : Reference :=
  mkReference (StateURN res) (StateID res).

(** The references of the provider resources among the old resources, in
    order. *)
Definition old_provider_refs `{Ext : Externals} (prev : list State)
  : list Reference :=
  omap (λ res, if IsProviderType (URN_Type (StateURN res))
               then Some (state_ref res) else None) prev.

(** Neither a [host.CloseProvider] call nor a [Configure] call answered
    with an error. *)
Definition uneventful (e : Event) : bool :=
  match e with
  | EvCloseProvider _ _ => false
  | EvConfigure _ _ (Some _) => false
  | _ => true
  end.

(** What [Diff] makes of the plugin's answer on the path where the
    [(urn, UnknownID)] lookup hits. *)
Definition normalized `{Ext : Externals} (olds news : PropertyMap)
  (d : DiffResult) : DiffResult :=
  if bool_decide (Changes d = DiffUnknown)
  then setChanges d (if DeepEquals olds news then DiffNone else DiffSome)
  else d.

(** The calls an operation may make: the loader's calls, [CheckConfig] and
    [host.CloseProvider] for [Check]; [DiffConfig] and [host.CloseProvider]
    for [Diff]; [Configure] and the UUID source for [Create]; [Configure]
    for [Update]; [host.CloseProvider] for [Delete]; none for [Same] and
    [RegisterAlias]. *)
Definition footprint (op : Op) (e : Event) : bool :=
  match op, e with
  | OpCheck _ _ _ _ _, EvCheckConfig _ _ _ _ _ _ => true
  | OpCheck _ _ _ _ _, EvCloseProvider _ _ => true
  | OpCheck _ _ _ _ _, _ => is_loader_call e
  | OpDiff _ _ _ _ _ _, EvDiffConfig _ _ _ _ _ _ _ => true
  | OpDiff _ _ _ _ _ _, EvCloseProvider _ _ => true
  | OpCreate _ _ _ _, EvConfigure _ _ _ => true
  | OpCreate _ _ _ _, EvUuidNewV4 _ => true
  | OpUpdate _ _ _ _ _ _ _, EvConfigure _ _ _ => true
  | OpDelete _ _ _ _, EvCloseProvider _ _ => true
  | _, _ => false
  end.

(** No URN is recorded as its own alias. *)
Definition no_self_alias (r : Registry) : Prop :=
  ∀ N, aliases r !! N ≠ Some N.

(** The alias map an operation leaves: [RegisterAlias] is the only one that
    writes it. *)
Definition aliases_after (op : Op) (r : Registry) : gmap string string :=
  match op with
  | OpRegisterAlias providerURN alias =>
      aliases (RegisterAlias r providerURN alias)
  | _ => aliases r
  end.

(** ** A concrete world

    URNs of the form [urn:pulumi:<stack>::<project>::<type>::<name>], a host
    that hands out a fresh handle per load, plugins whose answers are read
    off their inputs, and a UUID source that counts. *)
Module Demo.

Fixpoint split_sections (s : string) (cur : string) : list string :=
  match s with
  | EmptyString => [cur]
  | String c rest =>
      match rest with
      | String c' rest' =>
          if bool_decide (c = ":"%char) && bool_decide (c' = ":"%char)
          then cur :: split_sections rest' ""
          else split_sections rest (cur ++ String c "")
      | EmptyString => [cur ++ String c ""]
      end
  end.

Definition providersPrefix : string := "pulumi:providers:".

Definition demo_URN_Type (urn : URN) : TypeToken :=
  match split_sections urn "" with
  | [_; _; typ; _] => typ
  | _ => ""
  end.

Definition demo_IsProviderType (typ : TypeToken) : bool :=
  bool_decide (String.substring 0 (String.length providersPrefix) typ = providersPrefix)
  && negb (bool_decide (String.length typ = String.length providersPrefix)).

Definition demo_GetProviderPackage (typ : TypeToken) : Package :=
  String.substring (String.length providersPrefix)
    (String.length typ - String.length providersPrefix) typ.

Definition demo_ParseTolerant (s : string) : Version + error :=
  if bool_decide (s = "2.0.0") || bool_decide (s = "v2.0.0")
  then inl (mkVersion 2 0 0 [] [])
  else if bool_decide (s = "1.5") then inl (mkVersion 1 5 0 [] [])
  else inr (errorString ("Invalid character(s) found in major number " ++ s)).

Definition demo_Version_String (v : Version) : string :=
  pretty (Major v) ++ "." ++ pretty (Minor v) ++ "." ++ pretty (Patch v).

Global Instance demo_externals : Externals := {|
  URN_Type := demo_URN_Type;
  IsProviderType := demo_IsProviderType;
  GetProviderPackage := demo_GetProviderPackage;
  validReference := λ urn id, demo_IsProviderType (demo_URN_Type urn);
  UnknownID := "04da6b54-80e4-46f7-96ec-b56ff0331ba9";
  ParseTolerant := demo_ParseTolerant;
  Version_String := demo_Version_String;
  DeepEquals := λ olds news, bool_decide (olds = news);
  Replace := λ d, negb (bool_decide (ReplaceKeys d = []))
|}.

Record World : Type := mkWorld {
  next_handle : nat;
  next_uuid : nat
}.

Definition has_key (m : PropertyMap) (k : string) : bool :=
  bool_decide (is_Some (pm_get m k)).

(** The host fails on package [broken], misses package [absent], and
    otherwise starts a new plugin.  A plugin rejects a configuration with an
    [invalid] key in [CheckConfig] and one with a [reject] key in
    [Configure]; its [DiffConfig] answers [DiffUnknown] and asks for a
    replacement when the new inputs have a [region] key. *)
Definition env : Env World :=
  λ X c,
    match c in ExtCall X return World → X * World with
    | HostProvider pkg version => λ w,
        if bool_decide (pkg = "broken")
        then ((None, Some (errorString "plugin crashed on start")), w)
        else if bool_decide (pkg = "absent")
        then ((None, Some (MissingError "no resource plugin 'absent' found")), w)
        else ((Some (next_handle w), None),
              mkWorld (S (next_handle w)) (next_uuid w))
    | HostCloseProvider p => λ w, (None, w)
    | PluginPkg h => λ w, ("pulumi", w)
    | PluginCheckConfig h urn olds news au => λ w,
        if has_key news "invalid"
        then ((None, [mkCheckFailure "invalid" "unknown configuration key"], None), w)
        else ((news, [], None), w)
    | PluginDiffConfig h urn olds news au ic => λ w,
        ((mkDiffResult DiffUnknown
            (if has_key news "region" then ["region"] else []) [] [] false,
          None), w)
    | PluginConfigure h inputs => λ w,
        if has_key inputs "reject"
        then (Some (errorString "configuration rejected"), w)
        else (None, w)
    | GetLatestVersion spec => λ w,
        ((None, Some (errorString "no released version")), w)
    | DownloadToFile spec => λ w,
        (("", Some (errorString "403 forbidden")), w)
    | Install spec file re => λ w, (None, w)
    | UuidNewV4 => λ w,
        (("uuid-" ++ pretty (next_uuid w), None),
         mkWorld (next_handle w) (S (next_uuid w)))
    end.

Definition w0 : World := mkWorld 0 0.

Definition awsURN : URN := "urn:pulumi:dev::p::pulumi:providers:aws::a".
Definition oldURN : URN := "urn:pulumi:dev::p::pulumi:providers:aws::old".

Definition v2 : PropertyMap := Some {[ "version" := StringProperty "2.0.0" ]}.
Definition v2_region : PropertyMap :=
  Some {[ "version" := StringProperty "2.0.0"; "region" := StringProperty "eu" ]}.
Definition v2_reject : PropertyMap :=
  Some {[ "version" := StringProperty "2.0.0"; "reject" := BoolProperty true ]}.
Definition v2_invalid : PropertyMap :=
  Some {[ "version" := StringProperty "2.0.0"; "invalid" := BoolProperty true ]}.
Definition bad_version : PropertyMap :=
  Some {[ "version" := StringProperty "not-a-semver" ]}.

(** The registry [NewRegistry] builds from no old resources, outside a
    preview and without builtins. *)
Definition r0 : Registry := mkRegistry false ∅ None ∅.

(** One provider of the last deployment, and the registry and world
    [NewRegistry] leaves when it has loaded it: handle 0 under its
    reference. *)
Definition prior : list State := [mkState awsURN "id0" v2 ""].

Definition r_prior : Registry :=
  mkRegistry false {[ mkReference awsURN "id0" := Some 0 ]} None ∅.

Definition w_prior : World := mkWorld 1 0.

(** The registry after [Check] of [awsURN] from [r0] has published handle 0,
    and after [Create] has registered it under the id [uuid-0] as well. *)
Definition r_checked : Registry :=
  mkRegistry false {[ mkReference awsURN UnknownID := Some 0 ]} None ∅.

Definition r_created : Registry :=
  mkRegistry false
    (<[ mkReference awsURN "uuid-0" := Some 0 ]>
       {[ mkReference awsURN UnknownID := Some 0 ]}) None ∅.

Definition w_checked : World := mkWorld 1 0.

(** Check, Create, a Diff that asks for a replacement, and Delete, all on
    one URN. *)
Definition check_create_diff_delete : list Op :=
  [OpCheck awsURN None v2 false [];
   OpCreate awsURN v2 0 false;
   OpDiff awsURN "uuid-0" v2 v2_region false [];
   OpDelete awsURN "uuid-0" v2 0].

(** An update that replaces a provider of the last deployment: Check, a
    Diff that asks for a replacement, the Check and Create of the
    replacement, and the Delete of the old provider. *)
Definition replace_prior : list Op :=
  [OpCheck awsURN v2 v2_region false [];
   OpDiff awsURN "id0" v2 v2_region false [];
   OpCheck awsURN None v2_region false [];
   OpCreate awsURN v2_region 0 false;
   OpDelete awsURN "id0" v2 0].

(** A Diff that asks for a replacement, repeated without the Check in
    between. *)
Definition check_diff_diff : list Op :=
  [OpCheck awsURN v2 v2_region false [];
   OpDiff awsURN "id0" v2 v2_region false [];
   OpDiff awsURN "id0" v2 v2_region false []].

(** A registry with a builtin provider, handle 9, for package [pulumi], and
    a Check of a configuration the builtin rejects, twice. *)
Definition pulumiURN : URN := "urn:pulumi:dev::p::pulumi:providers:pulumi::default".

Definition r_builtin : Registry := mkRegistry false ∅ (Some 9) ∅.

Definition check_twice : list Op :=
  [OpCheck pulumiURN None v2_invalid false [];
   OpCheck pulumiURN None v2_invalid false []].

(** Inputs whose download URL is not a string, a provider the host cannot
    start, and a version in full. *)
Definition bad_url : PropertyMap :=
  Some {[ "version" := StringProperty "2.0.0";
          "pluginDownloadURL" := NumberProperty 1 ]}.

Definition brokenURN : URN := "urn:pulumi:dev::p::pulumi:providers:broken::b".

Definition v200 : Version := mkVersion 2 0 0 [] [].

(** A provider of the last deployment whose configuration the plugin
    rejects. *)
Definition prior_reject : list State := [mkState awsURN "id0" v2_reject ""].

(** The old provider under [(oldURN, id0)], and [awsURN] aliased to
    [oldURN]. *)
Definition r_aliased : Registry :=
  mkRegistry false {[ mkReference oldURN "id0" := Some 0 ]} None
    {[ awsURN := oldURN ]}.

(** An alias, a self-alias request, and then Check and Create. *)
Definition alias_then_check : list Op :=
  [OpRegisterAlias awsURN oldURN;
   OpRegisterAlias awsURN awsURN;
   OpCheck awsURN None v2 false [];
   OpCreate awsURN v2 0 false].

End Demo.

(** * Properties *)

Local Open Scope list_scope.

(** ** Stepping through runs *)

Ltac env_step env :=
  match goal with
  | |- context [env ?X ?c ?w] =>
      let x := fresh "ans" in let w' := fresh "w" in
      destruct (env X c w) as [x w'] eqn:?
  end.

Ltac case_step :=
  match goal with
  | |- context [match ?x with _ => _ end] => is_var x; destruct x
  | |- context [if ?b then _ else _] => destruct b eqn:?
  | |- context [match ?m !! ?k with _ => _ end] => destruct (m !! k) eqn:?
  end.

Ltac crunch env := repeat (cbn; first [env_step env | case_step]); cbn.

Ltac inv_elem :=
  repeat match goal with
  | H : _ ∈ [] |- _ => by apply elem_of_nil in H
  | H : _ ∈ _ :: _ |- _ =>
      apply elem_of_cons in H as [H|H];
      [first [discriminate H | injection H as H; simplify_eq]|]
  end.

(** ** Running programs *)

Section RunLemmas.
Context {World : Type} (env : Env World).

Lemma run_bind {A B : Type} (m : Prog A) (f : A → Prog B) (w : World) :
  run env (bind m f) w =
  match run env m w with
  | (Returned a, w1, t1) =>
      let '(out, w2, t2) := run env (f a) w1 in (out, w2, t1 ++ t2)
  | (Panicked msg, w1, t1) => (Panicked msg, w1, t1)
  end.
Proof.
  revert w. induction m as [a|msg|X c k IH]; intros w; simpl.
  - by destruct (run env (f a) w) as [[??]?].
  - done.
  - destruct (env X c w) as [x w1]. rewrite IH.
    destruct (run env (k x) w1) as [[[a|msg] w2] t1]; [|done].
    by destruct (run env (f a) w2) as [[??]?].
Qed.

End RunLemmas.

(** ** The concrete world at work *)

Example demo_type : Demo.demo_URN_Type Demo.awsURN = "pulumi:providers:aws".
Proof. reflexivity. Qed.

Example demo_pkg : GetProviderPackage (URN_Type Demo.awsURN) = "aws".
Proof. reflexivity. Qed.

Example demo_valid : validReference Demo.awsURN UnknownID = true.
Proof. reflexivity. Qed.

Example demo_invalid : validReference "garbage" UnknownID = false.
Proof. reflexivity. Qed.

Example demo_new :
  run Demo.env (NewRegistry [] false None) Demo.w0
  = (Returned (Some Demo.r0, None), Demo.w0, []).
Proof. reflexivity. Qed.

(** ** Refused methods *)

Section Refusals.
Context `{Ext : Externals}.

(** C5, as the code has it: seven of the nine methods are contract
    violations when called on the registry ([GetSchema], [GetMapping],
    [CheckConfig], [DiffConfig], [Configure], [Invoke], [Call]); [Construct]
    and [GetPluginInfo] return an ordinary error value instead. *)
Theorem C5_refused_methods (r : Registry) :
  seven_refused r
  ∧ (∀ info typ name parent inputs options,
        Construct r info typ name parent inputs options
        = Ret (mkConstructResult "" None,
               Some (errorString "provider resources may not be constructed")))
  ∧ GetPluginInfo r
    = Ret (mkPluginInfo "" "" "" None,
           Some (errorString "the provider registry does not report plugin info")).
Proof.
  unfold seven_refused, refuses; repeat split; intros; eexists; reflexivity.
Qed.

End Refusals.

(** C5 as stated fails: called on the registry, [Construct] and
    [GetPluginInfo] do not abort, they return. *)
Lemma C5_construct_and_plugin_info_return :
  ¬ all_refused Demo.r0
  ∧ ¬ refuses (Construct Demo.r0 mkConstructInfo "pulumi:providers:aws" "a" ""
                 None mkConstructOptions)
  ∧ ¬ refuses (GetPluginInfo Demo.r0).
Proof.
  unfold all_refused, refuses; repeat split.
  - intros (_ & _ & [msg H]). discriminate H.
  - intros [msg H]. discriminate H.
  - intros [msg H]. discriminate H.
Qed.

(** ** The provider map and the alias map *)

Section Maps.
Context `{Ext : Externals}.


Lemma RegisterAlias_providers (r : Registry) (N O : URN) :
  providers (RegisterAlias r N O) = providers r.
Proof. unfold RegisterAlias. by destruct (decide (N ≠ O)). Qed.


Lemma GetProvider_Some (r : Registry) (ref : Reference) (p : Provider) :
  GetProvider r ref = (p, true) ↔ providers r !! ref = Some p.
Proof.
  unfold GetProvider. destruct (providers r !! ref); split; intros H;
    by simplify_eq.
Qed.

(** What [setProvider] leaves in the provider map. *)
Lemma setProvider_Ret (r r' : Registry) (ref : Reference) (p : Provider) :
  setProvider r ref p = Ret r' →
  isPreview r' = isPreview r ∧ builtins r' = builtins r
  ∧ aliases r' = aliases r
  ∧ providers r' =
      match aliases r !! ref_urn ref with
      | Some alias =>
          <[mkReference alias (ref_id ref) := p]> (<[ref := p]> (providers r))
      | None => <[ref := p]> (providers r)
      end.
Proof.
  unfold setProvider; simpl.
  destruct (aliases r !! ref_urn ref) as [alias|]; simpl.
  - unfold mustNewReference. destruct (validReference alias _); simpl; [|done].
    intros [= <-]. done.
  - intros [= <-]. done.
Qed.



End Maps.



(** ** Check on a version that does not parse *)

Section CheckVersion.
Context `{Ext : Externals}.

(** C7 (unparsable version): when the [version] entry of the new inputs is
    not a string, or is a string the tolerant semver parser rejects, [Check]
    makes no call at all, to the host, the loader or anything else: its
    trace is empty in every environment; and on a provider URN, which
    [Check] requires, it is the program that returns nil inputs, the single
    failure on property [version] and no error, with the registry as it
    was. *)
Theorem C7_check_unparsable_version (r : Registry) (urn : URN)
  (olds news : PropertyMap) (au : bool) (seed : list N) (v : PropertyValue) :
  pm_get news versionKey = Some v →
  (IsString v = false ∨ ∃ e, ParseTolerant (StringValue v) = inr e) →
  ∃ reason,
    (∀ (World : Type) (env : Env World) (w : World),
        trace_of env (Check r urn olds news au seed) w = [])
    ∧ (IsProviderType (URN_Type urn) = true →
       Check r urn olds news au seed
       = Ret ((None, [mkCheckFailure "version" reason], None), r)
       ∧ ∀ (World : Type) (env : Env World) (w : World),
           run env (Check r urn olds news au seed) w
           = (Returned ((None, [mkCheckFailure "version" reason], None), r),
              w, [])).
Proof.
  intros Hv Hbad.
  assert (∃ e, GetProviderVersion news = (None, Some e)) as [e He].
  { unfold GetProviderVersion. rewrite Hv.
    destruct Hbad as [Hns|[e Hp]].
    - rewrite Hns; simpl. eauto.
    - destruct (IsString v); simpl; [|eauto]. rewrite Hp. eauto. }
  exists (Error e). split.
  - intros World env w. unfold trace_of, Check. rewrite He.
    by destruct (IsProviderType (URN_Type urn)).
  - intros Hty.
    assert (Check r urn olds news au seed
            = Ret ((None, [mkCheckFailure "version" (Error e)], None), r)) as ->.
    { unfold Check. rewrite Hty, He. reflexivity. }
    done.
Qed.

End CheckVersion.

Lemma C7_check_unparsable_version_witness :
  pm_get Demo.bad_version versionKey = Some (StringProperty "not-a-semver")
  ∧ (∃ e, ParseTolerant "not-a-semver" = inr e)
  ∧ IsProviderType (URN_Type Demo.awsURN) = true
  ∧ ∃ reason,
      trace_of Demo.env
        (Check Demo.r0 Demo.awsURN None Demo.bad_version false []) Demo.w0 = []
      ∧ Check Demo.r0 Demo.awsURN None Demo.bad_version false []
        = Ret ((None, [mkCheckFailure "version" reason], None), Demo.r0).
Proof.
  assert (IsProviderType (URN_Type Demo.awsURN) = true) as Hty
    by reflexivity.
  assert (pm_get Demo.bad_version versionKey
          = Some (StringProperty "not-a-semver")) as Hv
    by reflexivity.
  assert (∃ e, ParseTolerant (StringValue (StringProperty "not-a-semver")) = inr e)
    as Hp by (eexists; reflexivity).
  split; [exact Hv|]. split; [exact Hp|]. split; [exact Hty|].
  destruct (C7_check_unparsable_version Demo.r0 Demo.awsURN None
              Demo.bad_version false [] _ Hv (or_intror Hp))
    as (reason & Hquiet & Hret).
  exists reason. split; [exact (Hquiet _ Demo.env Demo.w0)|].
  exact (proj1 (Hret Hty)).
Defined.

(** ** The plugin loader *)

Section Loader.
Context `{Ext : Externals} {World : Type} (env : Env World).

(** C9 (loader error classification): when the first answer of
    [host.Provider] in a run of [loadProvider] is an error that is not a
    [MissingError] (the host is asked at all only when [pkg] is not the
    builtin package), the loader returns nil and that very error, asks the
    host only that once, and makes no version resolution, download or
    install call; and a run that makes any such call is one whose first
    [host.Provider] answer was a [MissingError]. *)
Theorem C9_loader_error_classification (w : World) (pkg : Package)
  (version : option Version) (downloadURL : string)
  (checksums : option (gmap string (list N))) (builtins : Provider) :
  (∀ (p : Provider) (e : error),
     head (provider_answers
             (trace_of env (loadProvider pkg version downloadURL checksums builtins) w))
     = Some (p, Some e) →
     errors_As_MissingError e = false →
     outcome_of env (loadProvider pkg version downloadURL checksums builtins) w
     = Returned (None, Some e)
     ∧ filter is_install_call
         (trace_of env (loadProvider pkg version downloadURL checksums builtins) w)
       = []
     ∧ provider_answers
         (trace_of env (loadProvider pkg version downloadURL checksums builtins) w)
       = [(p, Some e)])
  ∧ (filter is_install_call
       (trace_of env (loadProvider pkg version downloadURL checksums builtins) w)
     ≠ [] →
     ∃ (p : Provider) (e : error),
       head (provider_answers
               (trace_of env (loadProvider pkg version downloadURL checksums builtins) w))
       = Some (p, Some e)
       ∧ errors_As_MissingError e = true).
Proof.
  unfold trace_of, outcome_of, loadProvider. split.
  - intros p e Hhead Hnot.
    destruct builtins as [b|]; cbn in *.
    + destruct (env _ (PluginPkg b) w) as [pk w1].
      destruct (bool_decide (pkg = pk)); cbn in *; [done|].
      destruct (env _ (HostProvider pkg version) w1) as [[prov [e'|]] w2];
        cbn in *; [|done].
      destruct (errors_As_MissingError e') eqn:He'; cbn in *.
      * destruct (run env _ w2) as [[o w3] t]. cbn in Hhead. congruence.
      * by simplify_eq.
    + destruct (env _ (HostProvider pkg version) w) as [[prov [e'|]] w2];
        cbn in *; [|done].
      destruct (errors_As_MissingError e') eqn:He'; cbn in *.
      * destruct (run env _ w2) as [[o w3] t]. cbn in Hhead. congruence.
      * by simplify_eq.
  - destruct builtins as [b|]; cbn.
    + destruct (env _ (PluginPkg b) w) as [pk w1].
      destruct (bool_decide (pkg = pk)); cbn; [done|].
      destruct (env _ (HostProvider pkg version) w1) as [[prov [e'|]] w2];
        cbn; [|done].
      destruct (errors_As_MissingError e') eqn:He'; cbn; [|done].
      destruct (run env _ w2) as [[o w3] t]. cbn. eauto.
    + destruct (env _ (HostProvider pkg version) w) as [[prov [e'|]] w2];
        cbn; [|done].
      destruct (errors_As_MissingError e') eqn:He'; cbn; [|done].
      destruct (run env _ w2) as [[o w3] t]. cbn. eauto.
Qed.

End Loader.

Lemma C9_loader_error_classification_witness :
  (head (provider_answers
           (trace_of Demo.env (loadProvider "broken" None "" None None) Demo.w0))
   = Some (None, Some (errorString "plugin crashed on start"))
   ∧ errors_As_MissingError (errorString "plugin crashed on start") = false
   ∧ outcome_of Demo.env (loadProvider "broken" None "" None None) Demo.w0
     = Returned (None, Some (errorString "plugin crashed on start"))
   ∧ filter is_install_call
       (trace_of Demo.env (loadProvider "broken" None "" None None) Demo.w0) = []
   ∧ provider_answers
       (trace_of Demo.env (loadProvider "broken" None "" None None) Demo.w0)
     = [(None, Some (errorString "plugin crashed on start"))])
  ∧ (filter is_install_call
       (trace_of Demo.env (loadProvider "absent" None "" None None) Demo.w0) ≠ []
     ∧ ∃ (p : Provider) (e : error),
         head (provider_answers
                 (trace_of Demo.env (loadProvider "absent" None "" None None)
                    Demo.w0))
         = Some (p, Some e)
         ∧ errors_As_MissingError e = true).
Proof.
  assert (head (provider_answers
            (trace_of Demo.env (loadProvider "broken" None "" None None) Demo.w0))
          = Some (None, Some (errorString "plugin crashed on start"))) as Hh
    by reflexivity.
  assert (filter is_install_call
            (trace_of Demo.env (loadProvider "absent" None "" None None) Demo.w0)
          ≠ []) as Hi by discriminate.
  split.
  - split; [exact Hh|]. split; [reflexivity|].
    exact (proj1 (C9_loader_error_classification Demo.env Demo.w0 "broken" None
                    "" None None)
             None (errorString "plugin crashed on start") Hh eq_refl).
  - split; [exact Hi|].
    exact (proj2 (C9_loader_error_classification Demo.env Demo.w0 "absent" None
                    "" None None) Hi).
Defined.

(** The other side of the classification: a [MissingError] sends the loader
    on to the workspace. *)
Example loader_missing_goes_to_workspace :
  trace_of Demo.env (loadProvider "absent" None "" None None) Demo.w0
  = [EvProvider "absent" None
       (None, Some (MissingError "no resource plugin 'absent' found"));
     EvGetLatestVersion (mkPluginSpec ResourcePlugin "absent" None "" None)
       (None, Some (errorString "no released version"))].
Proof. reflexivity. Qed.

Section LoaderTrace.
Context `{Ext : Externals} {World : Type} (env : Env World).

Lemma loadProvider_trace (w : World) (pkg : Package) (version : option Version)
  (downloadURL : string) (checksums : option (gmap string (list N)))
  (builtins : Provider) :
  Forall (λ e, is_loader_call e = true)
    (trace_of env (loadProvider pkg version downloadURL checksums builtins) w).
Proof.
  unfold trace_of, loadProvider.
  crunch env; repeat constructor.
Qed.

Lemma loader_trace_closes (t : list Event) :
  Forall (λ e, is_loader_call e = true) t →
  closes t = [] ∧ closed_handles t = []
  ∧ (∀ e, e ∈ t → rpc_handle e = None).
Proof.
  induction 1 as [|e t He Ht IH]; [by split_and!; [..|intros ? ?%elem_of_nil]|].
  destruct IH as (IH1 & IH2 & IH3).
  unfold closes, closed_handles in *.
  destruct e; simplify_eq/=; rewrite ?IH1, ?IH2; split_and!; try done;
    intros e' [->|?]%elem_of_cons; auto.
Qed.

End LoaderTrace.

Section CheckProps.
Context `{Ext : Externals} {World : Type} (env : Env World).

Local Arguments loadProvider : simpl never.

(** C3 (publish xor close): in a run of [Check] that reaches the plugin's
    [CheckConfig], either the answer has no failures and no error, nothing
    is closed, and [Check] returns the plugin's inputs with the loaded
    handle published under [(urn, UnknownID)] by [setProvider] (the
    unknown-id references of the URN and of its alias, if one is recorded,
    being references [mustNewReference] accepts); or the answer has failures
    or an error, the run ends with [host.CloseProvider] on the loaded handle
    (its answer dropped), that is the only close, and [Check] returns nil
    inputs, the failures and the error with the registry unchanged. *)
Theorem C3_check_publish_xor_close (w : World) (r : Registry) (urn : URN)
  (olds news : PropertyMap) (au : bool) (seed : list N) (h : Handle)
  (inputs : PropertyMap) (failures : list CheckFailure) (err : option error) :
  EvCheckConfig h urn olds news au (inputs, failures, err)
    ∈ trace_of env (Check r urn olds news au seed) w →
  (failures = [] ∧ err = None
   ∧ closes (trace_of env (Check r urn olds news au seed) w) = []
   ∧ (validReference urn UnknownID = true →
      alias_valid r urn UnknownID →
      ∃ r', outcome_of env (Check r urn olds news au seed) w
              = Returned ((inputs, [], None), r')
            ∧ setProvider r (mkReference urn UnknownID) (Some h) = Ret r'
            ∧ GetProvider r' (mkReference urn UnknownID) = (Some h, true)))
  ∨ ((failures ≠ [] ∨ err ≠ None)
     ∧ outcome_of env (Check r urn olds news au seed) w
       = Returned ((None, failures, err), r)
     ∧ closes (trace_of env (Check r urn olds news au seed) w) = [Some h]
     ∧ ∃ pre closeErr,
         trace_of env (Check r urn olds news au seed) w
         = pre ++ [EvCheckConfig h urn olds news au (inputs, failures, err);
                   EvCloseProvider (Some h) closeErr]).
Proof.
  unfold trace_of, outcome_of, Check.
  destruct (IsProviderType (URN_Type urn)); cbn; [|intros; inv_elem].
  destruct (GetProviderVersion news) as [version [e1|]]; cbn; [intros; inv_elem|].
  destruct (GetProviderDownloadURL news) as [url [e2|]]; cbn; [intros; inv_elem|].
  rewrite run_bind.
  pose proof (loadProvider_trace env w (GetProviderPackage (URN_Type urn))
                version url None (builtins r)) as Hld.
  apply loader_trace_closes in Hld as (Hc & _ & Hrpc). unfold trace_of in *.
  destruct (run env (loadProvider _ _ _ _ _) w) as [[[[prov lerr]|msg] w1] t1];
    cbn in *.
  2:{ by intros Hin%Hrpc. }
  destruct lerr as [le|]; cbn.
  { rewrite app_nil_r. by intros Hin%Hrpc. }
  destruct prov as [h0|]; cbn.
  2:{ rewrite app_nil_r. by intros Hin%Hrpc. }
  destruct (env _ (PluginCheckConfig h0 urn olds news au) w1)
    as [[[inputs0 failures0] err0] w2]; cbn.
  destruct (negb (bool_decide (length failures0 = 0)) || bool_decide (err0 ≠ None))
    eqn:Hcond; cbn.
  - destruct (env _ (HostCloseProvider (Some h0)) w2) as [closeErr w3]; cbn.
    assert (failures0 ≠ [] ∨ err0 ≠ None) as Hfail.
    { apply orb_true_iff in Hcond as [Hf|He].
      - left. apply negb_true_iff, bool_decide_eq_false in Hf.
        by destruct failures0.
      - right. by apply bool_decide_eq_true in He. }
    intros [Hin%Hrpc|Hin]%elem_of_app; [done|]. inv_elem.
    right. split_and!.
    + done.
    + done.
    + unfold closes in *. by rewrite omap_app, Hc.
    + eauto.
  - apply orb_false_iff in Hcond as [Hf He].
    apply negb_false_iff, bool_decide_eq_true in Hf.
    apply bool_decide_eq_false in He.
    assert (failures0 = []) as -> by (by destruct failures0).
    assert (err0 = None) as -> by (by destruct err0 as [e|]; [destruct He|]).
    unfold setProvider, mustNewReference; cbn.
    destruct (validReference urn UnknownID) eqn:Hv; cbn;
      [destruct (aliases r !! urn) as [alias|] eqn:Ha; cbn;
       [destruct (validReference alias UnknownID) eqn:Hva; cbn|]|];
      (intros [Hin%Hrpc|Hin]%elem_of_app; [done|]); inv_elem;
      left; (split_and!; [done|done|unfold closes in *; by rewrite omap_app, Hc|]);
      intros Hurn Hal; try done.
    + eexists; split_and!; [reflexivity..|].
      apply GetProvider_Some; cbn.
      destruct (decide (alias = urn)) as [->|Hne].
      * apply lookup_insert_eq.
      * rewrite lookup_insert_ne by congruence. apply lookup_insert_eq.
    + specialize (Hal _ Ha). congruence.
    + eexists; split_and!; [reflexivity..|].
      apply GetProvider_Some; cbn. apply lookup_insert_eq.
Qed.

End CheckProps.

Lemma alias_valid_r0 (urn : URN) (id : ID) : alias_valid Demo.r0 urn id.
Proof. intros O H. cbn in H. exfalso. by rewrite lookup_empty in H. Qed.

Lemma C3_check_publish_xor_close_witness :
  EvCheckConfig 0 Demo.awsURN None Demo.v2 false (Demo.v2, [], None)
    ∈ trace_of Demo.env (Check Demo.r0 Demo.awsURN None Demo.v2 false []) Demo.w0
  ∧ validReference Demo.awsURN UnknownID = true
  ∧ alias_valid Demo.r0 Demo.awsURN UnknownID
  ∧ closes (trace_of Demo.env
              (Check Demo.r0 Demo.awsURN None Demo.v2 false []) Demo.w0) = []
  ∧ ∃ r', outcome_of Demo.env
            (Check Demo.r0 Demo.awsURN None Demo.v2 false []) Demo.w0
          = Returned ((Demo.v2, [], None), r')
          ∧ setProvider Demo.r0 (mkReference Demo.awsURN UnknownID) (Some 0)
            = Ret r'
          ∧ GetProvider r' (mkReference Demo.awsURN UnknownID) = (Some 0, true).
Proof.
  assert (validReference Demo.awsURN UnknownID = true) as Hv by reflexivity.
  assert (EvCheckConfig 0 Demo.awsURN None Demo.v2 false (Demo.v2, [], None)
            ∈ trace_of Demo.env
                (Check Demo.r0 Demo.awsURN None Demo.v2 false []) Demo.w0) as Hin.
  { apply list_elem_of_further, list_elem_of_here. }
  split; [exact Hin|]. split; [exact Hv|].
  split; [exact (alias_valid_r0 _ _)|].
  destruct (C3_check_publish_xor_close Demo.env Demo.w0 Demo.r0 Demo.awsURN None
              Demo.v2 false [] 0 Demo.v2 [] None Hin)
    as [(_ & _ & Hcl & Hpub)|([Hf|He] & _)].
  - split; [exact Hcl|]. exact (Hpub Hv (alias_valid_r0 _ _)).
  - destruct (Hf eq_refl).
  - destruct (He eq_refl).
Defined.

(** The closing side on the demo world: an [invalid] key makes the plugin's
    [CheckConfig] fail, and [Check] closes the handle it loaded. *)
Example check_failure_closes :
  closes (trace_of Demo.env
            (Check Demo.r0 Demo.awsURN None Demo.v2_invalid false []) Demo.w0)
  = [Some 0]
  ∧ outcome_of Demo.env
      (Check Demo.r0 Demo.awsURN None Demo.v2_invalid false []) Demo.w0
    = Returned ((None, [mkCheckFailure "invalid" "unknown configuration key"],
                 None), Demo.r0).
Proof. split; reflexivity. Qed.

(** ** Create *)

Section CreateProps.
Context `{Ext : Externals} {World : Type} (env : Env World).

(** C2 (dual registration): when [Create] returns without error and with a
    non-empty id, the handle that was published under [(urn, UnknownID)]
    before the call is afterwards found by [GetProvider] under both
    [(urn, UnknownID)] and [(urn, id)]. *)
Theorem C2_dual_registration (w : World) (r r' : Registry) (urn : URN)
  (news outputs : PropertyMap) (timeout : float64) (preview : bool)
  (id : ID) (status : Status) :
  outcome_of env (Create r urn news timeout preview) w
  = Returned ((id, outputs, status, None), r') →
  id ≠ "" →
  ∃ h, GetProvider r (mkReference urn UnknownID) = (Some h, true)
       ∧ GetProvider r' (mkReference urn UnknownID) = (Some h, true)
       ∧ GetProvider r' (mkReference urn id) = (Some h, true).
Proof.
  unfold outcome_of, Create, mustNewReference.
  destruct (validReference urn UnknownID) eqn:Hurn; cbn; [|done].
  unfold GetProvider at 1.
  destruct (providers r !! mkReference urn UnknownID) as [[h|]|] eqn:Hlk;
    cbn; [|done..].
  destruct (env _ (PluginConfigure h news) w) as [[e|] w1]; cbn; [done|].
  destruct preview; cbn.
  { unfold setProvider, mustNewReference.
    crunch env; by intros Heq Hid; simplify_eq. }
  destruct (env _ UuidNewV4 w1) as [[uuid [e|]] w2]; cbn.
  { by intros Heq Hid; simplify_eq. }
  destruct (bool_decide (uuid ≠ UnknownID)) eqn:Hunk; cbn; [|done].
  apply bool_decide_eq_true in Hunk.
  destruct (validReference urn uuid); cbn; [|done].
  unfold setProvider; cbn. destruct (aliases r !! urn) as [alias|]; cbn.
  - unfold mustNewReference. destruct (validReference alias uuid); cbn; [|done].
    intros Heq Hid; simplify_eq. exists h.
    rewrite !GetProvider_Some; cbn. split_and!; [done| |].
    + rewrite !lookup_insert_ne by congruence. done.
    + destruct (decide (alias = urn)) as [->|Hne].
      * apply lookup_insert_eq.
      * rewrite lookup_insert_ne by congruence. apply lookup_insert_eq.
  - intros Heq Hid; simplify_eq. exists h.
    rewrite !GetProvider_Some; cbn. split_and!; [done| |].
    + rewrite lookup_insert_ne by congruence. done.
    + apply lookup_insert_eq.
Qed.

(** C8 (Configure failure during Create): when the plugin's [Configure]
    answers an error in a run of [Create], that call is the whole trace (so
    nothing is closed), [Create] returns the empty id, nil outputs and that
    error, and the registry it returns is the one it was given: no entry
    was added, and the handle is still published under [(urn, UnknownID)]. *)
Theorem C8_create_configure_failure (w : World) (r : Registry) (urn : URN)
  (news : PropertyMap) (timeout : float64) (preview : bool) (h : Handle)
  (e : error) :
  EvConfigure h news (Some e) ∈ trace_of env (Create r urn news timeout preview) w →
  outcome_of env (Create r urn news timeout preview) w
  = Returned (("", None, StatusOK, Some e), r)
  ∧ trace_of env (Create r urn news timeout preview) w
    = [EvConfigure h news (Some e)]
  ∧ closes (trace_of env (Create r urn news timeout preview) w) = []
  ∧ GetProvider r (mkReference urn UnknownID) = (Some h, true).
Proof.
  unfold outcome_of, trace_of, Create, mustNewReference.
  destruct (validReference urn UnknownID) eqn:Hurn; cbn; [|intros; inv_elem].
  unfold GetProvider.
  destruct (providers r !! mkReference urn UnknownID) as [[h'|]|] eqn:Hlk;
    cbn; [|intros; inv_elem..].
  destruct (env _ (PluginConfigure h' news) w) as [[e'|] w1]; cbn.
  { intros Hin; inv_elem. done. }
  unfold setProvider, mustNewReference, Assertf.
  crunch env; intros; inv_elem.
Qed.

End CreateProps.

Example demo_check :
  run Demo.env (Check Demo.r0 Demo.awsURN None Demo.v2 false []) Demo.w0
  = (Returned ((Demo.v2, [], None), Demo.r_checked), Demo.w_checked,
     [EvProvider "aws" (Some (mkVersion 2 0 0 [] [])) (Some 0, None);
      EvCheckConfig 0 Demo.awsURN None Demo.v2 false (Demo.v2, [], None)]).
Proof. reflexivity. Qed.

Example demo_create :
  run Demo.env (Create Demo.r_checked Demo.awsURN Demo.v2 0 false) Demo.w_checked
  = (Returned (("uuid-0", Demo.v2, StatusOK, None), Demo.r_created),
     Demo.mkWorld 1 1,
     [EvConfigure 0 Demo.v2 None; EvUuidNewV4 ("uuid-0", None)]).
Proof. reflexivity. Qed.

Lemma C2_dual_registration_witness :
  outcome_of Demo.env (Create Demo.r_checked Demo.awsURN Demo.v2 0 false)
    Demo.w_checked
  = Returned (("uuid-0", Demo.v2, StatusOK, None), Demo.r_created)
  ∧ "uuid-0" ≠ ""
  ∧ ∃ h, GetProvider Demo.r_checked (mkReference Demo.awsURN UnknownID)
         = (Some h, true)
         ∧ GetProvider Demo.r_created (mkReference Demo.awsURN UnknownID)
           = (Some h, true)
         ∧ GetProvider Demo.r_created (mkReference Demo.awsURN "uuid-0")
           = (Some h, true).
Proof.
  assert (outcome_of Demo.env (Create Demo.r_checked Demo.awsURN Demo.v2 0 false)
            Demo.w_checked
          = Returned (("uuid-0", Demo.v2, StatusOK, None), Demo.r_created)) as Hout
    by reflexivity.
  assert ("uuid-0" ≠ "") as Hid by discriminate.
  split; [exact Hout|]. split; [exact Hid|].
  exact (C2_dual_registration Demo.env Demo.w_checked Demo.r_checked
           Demo.r_created Demo.awsURN Demo.v2 Demo.v2 0 false "uuid-0" StatusOK
           Hout Hid).
Defined.

Lemma C8_create_configure_failure_witness :
  EvConfigure 0 Demo.v2_reject (Some (errorString "configuration rejected"))
    ∈ trace_of Demo.env (Create Demo.r_checked Demo.awsURN Demo.v2_reject 0 false)
        Demo.w_checked
  ∧ outcome_of Demo.env (Create Demo.r_checked Demo.awsURN Demo.v2_reject 0 false)
      Demo.w_checked
    = Returned (("", None, StatusOK,
                 Some (errorString "configuration rejected")), Demo.r_checked)
  ∧ trace_of Demo.env (Create Demo.r_checked Demo.awsURN Demo.v2_reject 0 false)
      Demo.w_checked
    = [EvConfigure 0 Demo.v2_reject (Some (errorString "configuration rejected"))]
  ∧ closes (trace_of Demo.env
              (Create Demo.r_checked Demo.awsURN Demo.v2_reject 0 false)
              Demo.w_checked) = []
  ∧ GetProvider Demo.r_checked (mkReference Demo.awsURN UnknownID)
    = (Some 0, true).
Proof.
  assert (EvConfigure 0 Demo.v2_reject
            (Some (errorString "configuration rejected"))
          ∈ trace_of Demo.env
              (Create Demo.r_checked Demo.awsURN Demo.v2_reject 0 false)
              Demo.w_checked) as Hin.
  { apply list_elem_of_here. }
  split; [exact Hin|].
  exact (C8_create_configure_failure Demo.env Demo.w_checked Demo.r_checked
           Demo.awsURN Demo.v2_reject 0 false 0
           (errorString "configuration rejected") Hin).
Defined.

(** ** Diff *)

Section DiffProps.
Context `{Ext : Externals} {World : Type} (env : Env World).

(** C4, as the code has it: when the plugin's [DiffConfig] answers
    [DiffUnknown] without error, [Diff] normalizes the answer on the path
    where the [(urn, UnknownID)] lookup hits, to [DiffNone] when the old and
    new inputs are deeply equal and to [DiffSome] otherwise, the other
    fields kept; on the delete-before-replace fallback path, where that
    lookup misses and the handle under [(urn, id)] is asked, [Diff] returns
    the plugin's answer as it is. *)
Theorem C4_diff_unknown_normalization (w : World) (r : Registry) (urn : URN)
  (id : ID) (olds news : PropertyMap) (au : bool) (ic : list string)
  (h : Handle) (d : DiffResult) :
  EvDiffConfig h urn olds news au ic (d, None)
    ∈ trace_of env (Diff r urn id olds news au ic) w →
  Changes d = DiffUnknown →
  if (GetProvider r (mkReference urn UnknownID)).2
  then outcome_of env (Diff r urn id olds news au ic) w
       = Returned
           ((setChanges d (if DeepEquals olds news then DiffNone else DiffSome),
             None), r)
  else outcome_of env (Diff r urn id olds news au ic) w
       = Returned ((d, None), r).
Proof.
  unfold outcome_of, trace_of, Diff, mustNewReference.
  destruct (bool_decide (id ≠ "")); cbn; [|intros; inv_elem].
  destruct (validReference urn UnknownID) eqn:Hurn; cbn; [|intros; inv_elem].
  unfold GetProvider.
  destruct (providers r !! mkReference urn UnknownID) as [[h'|]|] eqn:Hlk; cbn.
  - destruct (env _ (PluginDiffConfig h' urn olds news au ic) w)
      as [[d0 [e|]] w1]; cbn; [intros; inv_elem|].
    destruct (bool_decide (Changes d0 = DiffUnknown)) eqn:Hunk; cbn.
    + destruct (DeepEquals olds news); cbn;
        destruct (Replace (setChanges d0 _)); cbn;
        try (destruct (env _ (HostCloseProvider (Some h')) w1) as [ce w2]; cbn);
        intros Hin Hch; inv_elem; done.
    + apply bool_decide_eq_false in Hunk.
      destruct (Replace d0); cbn;
        try (destruct (env _ (HostCloseProvider (Some h')) w1) as [ce w2]; cbn);
        intros Hin Hch; inv_elem; done.
  - intros; inv_elem.
  - destruct (validReference urn id); cbn; [|intros; inv_elem].
    destruct (providers r !! mkReference urn id) as [[h'|]|] eqn:Hlk'; cbn;
      [|intros; inv_elem..].
    destruct (env _ (PluginDiffConfig h' urn olds news au ic) w)
      as [[d0 [e|]] w1]; cbn; intros Hin Hch; inv_elem. done.
Qed.

(** On the hit path the normalization is as [diff_normalizes] says. *)
Lemma Diff_hit_normalizes (w : World) (r : Registry) (urn : URN) (id : ID)
  (olds news : PropertyMap) (au : bool) (ic : list string) :
  (GetProvider r (mkReference urn UnknownID)).2 = true →
  diff_normalizes env r w urn id olds news au ic.
Proof.
  unfold diff_normalizes, outcome_of, trace_of, Diff, mustNewReference,
    GetProvider, Requiref, Assertf, on_plugin.
  intros Hhit h d. revert Hhit.
  destruct (bool_decide (id ≠ "")); cbn; [|intros; inv_elem].
  destruct (validReference urn UnknownID); cbn; [|intros; inv_elem].
  destruct (providers r !! mkReference urn UnknownID) as [[h'|]|]; cbn;
    [intros _|intros; inv_elem|done].
  destruct (env _ (PluginDiffConfig h' urn olds news au ic) w)
    as [[d0 [e|]] w1]; cbn; [intros; inv_elem|].
  destruct (bool_decide (Changes d0 = DiffUnknown)) eqn:Hunk; cbn.
  - destruct (DeepEquals olds news); cbn;
      destruct (Replace (setChanges d0 _)); cbn;
      try (destruct (env _ (HostCloseProvider (Some h')) w1) as [ce w2]; cbn);
      intros Hin Hch; inv_elem; eauto.
  - apply bool_decide_eq_false in Hunk.
    destruct (Replace d0); cbn;
      try (destruct (env _ (HostCloseProvider (Some h')) w1) as [ce w2]; cbn);
      intros Hin Hch; inv_elem; done.
Qed.

(** The normalization changes the answer only where it was [DiffUnknown],
    and closes the handle when the normalized diff asks for a replacement. *)
Lemma Diff_hit_trace (w : World) (r : Registry) (urn : URN) (id : ID)
  (olds news : PropertyMap) (au : bool) (ic : list string) (h : Handle) :
  id ≠ "" → validReference urn UnknownID = true →
  providers r !! mkReference urn UnknownID = Some (Some h) →
  ∀ d w1, env _ (PluginDiffConfig h urn olds news au ic) w = ((d, None), w1) →
  let d' := if bool_decide (Changes d = DiffUnknown)
            then setChanges d (if DeepEquals olds news then DiffNone else DiffSome)
            else d in
  outcome_of env (Diff r urn id olds news au ic) w = Returned ((d', None), r)
  ∧ closes (trace_of env (Diff r urn id olds news au ic) w)
    = if Replace d' then [Some h] else [].
Proof.
  intros Hid Hurn Hlk d w1 Hans. unfold outcome_of, trace_of, Diff, mustNewReference.
  rewrite bool_decide_eq_true_2 by done; cbn. rewrite Hurn; cbn.
  unfold GetProvider. rewrite Hlk; cbn. rewrite Hans; cbn.
  destruct (bool_decide (Changes d = DiffUnknown)); cbn;
    [destruct (DeepEquals olds news); cbn|];
    destruct (Replace _); cbn;
    try (destruct (env _ (HostCloseProvider (Some h)) w1) as [ce w2]; cbn);
    done.
Qed.

End DiffProps.

(** C4 as stated fails on the delete-before-replace fallback path: with
    only the prior provider registered under [(urn, id0)], the plugin
    answers [DiffUnknown], the old and new inputs are the same, and [Diff]
    hands [DiffUnknown] back. *)
Lemma C4_fallback_keeps_unknown :
  ¬ diff_normalizes Demo.env Demo.r_prior Demo.w_prior Demo.awsURN "id0"
      Demo.v2 Demo.v2 false [].
Proof.
  intros Hnorm.
  destruct (Hnorm 0 (mkDiffResult DiffUnknown [] [] [] false))
    as (d' & r' & Hout & Hch).
  - apply list_elem_of_here.
  - reflexivity.
  - injection Hout as <- _. discriminate Hch.
Qed.

Example demo_prior :
  run Demo.env (NewRegistry Demo.prior false None) Demo.w0
  = (Returned (Some Demo.r_prior, None), Demo.w_prior,
     [EvProvider "aws" (Some (mkVersion 2 0 0 [] [])) (Some 0, None);
      EvConfigure 0 Demo.v2 None]).
Proof. reflexivity. Qed.

Example demo_fallback_diff :
  run Demo.env (Diff Demo.r_prior Demo.awsURN "id0" Demo.v2 Demo.v2 false [])
    Demo.w_prior
  = (Returned ((mkDiffResult DiffUnknown [] [] [] false, None), Demo.r_prior),
     Demo.w_prior,
     [EvDiffConfig 0 Demo.awsURN Demo.v2 Demo.v2 false []
        (mkDiffResult DiffUnknown [] [] [] false, None)]).
Proof. reflexivity. Qed.

Lemma C4_diff_unknown_normalization_witness :
  EvDiffConfig 0 Demo.awsURN Demo.v2 Demo.v2 false []
      (mkDiffResult DiffUnknown [] [] [] false, None)
    ∈ trace_of Demo.env
        (Diff Demo.r_checked Demo.awsURN "id0" Demo.v2 Demo.v2 false [])
        Demo.w_checked
  ∧ Changes (mkDiffResult DiffUnknown [] [] [] false) = DiffUnknown
  ∧ outcome_of Demo.env
      (Diff Demo.r_checked Demo.awsURN "id0" Demo.v2 Demo.v2 false [])
      Demo.w_checked
    = Returned ((mkDiffResult DiffNone [] [] [] false, None), Demo.r_checked).
Proof.
  assert (EvDiffConfig 0 Demo.awsURN Demo.v2 Demo.v2 false []
            (mkDiffResult DiffUnknown [] [] [] false, None)
          ∈ trace_of Demo.env
              (Diff Demo.r_checked Demo.awsURN "id0" Demo.v2 Demo.v2 false [])
              Demo.w_checked) as Hin.
  { apply list_elem_of_here. }
  split; [exact Hin|]. split; [reflexivity|].
  exact (C4_diff_unknown_normalization Demo.env Demo.w_checked Demo.r_checked
           Demo.awsURN "id0" Demo.v2 Demo.v2 false [] 0
           (mkDiffResult DiffUnknown [] [] [] false) Hin eq_refl).
Defined.

(** ** Closing handles along a sequence of operations *)

Section TraceFacts.





End TraceFacts.

Section SingleClose.
Context `{Ext : Externals} {World : Type} (env : Env World).

Local Arguments loadProvider : simpl never.

Lemma trace_bind_pure {A B : Type} (m : Prog A) (f : A → Prog B) (w : World) :
  (∀ a, ∃ b, f a = Ret b) →
  trace_of env (bind m f) w = trace_of env m w.
Proof.
  intros Hf. unfold trace_of. rewrite run_bind.
  destruct (run env m w) as [[[a|msg] w1] t1]; simpl; [|done].
  destruct (Hf a) as [b ->]. simpl. apply app_nil_r.
Qed.










End SingleClose.

Example demo_double_close_trace :
  closes (trace_of Demo.env
            (exec_ops Demo.check_create_diff_delete Demo.r0) Demo.w0)
  = [Some 0; Some 0].
Proof. reflexivity. Qed.


(** In that run no RPC goes to a closed handle; it is the [Delete] that
    finds the closed handle under its reference. *)
Example demo_double_close_is_undisciplined :
  use_after_close []
    (trace_of Demo.env (exec_ops Demo.check_create_diff_delete Demo.r0) Demo.w0)
  = false
  ∧ deletes_live Demo.env [] Demo.check_create_diff_delete Demo.r0 Demo.w0
    = false.
Proof. split; reflexivity. Qed.

(** The other condition is needed as well: a second [Diff] without a Check
    in between sends [DiffConfig] to the handle the first one closed, and
    closes it again. *)
Example demo_rediff_closes_twice :
  returns (outcome_of Demo.env (exec_ops Demo.check_diff_diff Demo.r_prior)
             Demo.w_prior) = true
  ∧ close_count 1
      (trace_of Demo.env (exec_ops Demo.check_diff_diff Demo.r_prior)
         Demo.w_prior) = 2
  ∧ use_after_close []
      (trace_of Demo.env (exec_ops Demo.check_diff_diff Demo.r_prior)
         Demo.w_prior) = true
  ∧ deletes_live Demo.env [] Demo.check_diff_diff Demo.r_prior Demo.w_prior
    = true.
Proof. split_and!; reflexivity. Qed.

(** A handle the loader hands out twice is closed twice by two failing
    Checks: the builtin provider, which [loadProvider] returns for its
    package every time. *)
Example demo_builtin_closed_twice :
  returns (outcome_of Demo.env (exec_ops Demo.check_twice Demo.r_builtin)
             Demo.w0) = true
  ∧ closes (trace_of Demo.env (exec_ops Demo.check_twice Demo.r_builtin) Demo.w0)
    = [Some 9; Some 9].
Proof. split; reflexivity. Qed.


Example demo_replace_prior_closes :
  closes (trace_of Demo.env (exec_ops Demo.replace_prior Demo.r_prior)
            Demo.w_prior)
  = [Some 1; Some 0]
  ∧ returns (outcome_of Demo.env
               (exec_ops Demo.replace_prior Demo.r_prior) Demo.w_prior)
    = true.
Proof. split; reflexivity. Qed.

(** * Further properties of the registry *)

(** ** The version and download-URL entries of a provider's inputs *)

Section InputKeys.
Context `{Ext : Externals}.

(** Writing the download URL and reading it back: on a non-nil map
    [SetProviderURL] returns, [GetProviderDownloadURL] then yields the value
    written and no error, and every other key, the version included, reads
    as before; on a nil map the write is a runtime panic. *)
Theorem SetProviderURL_then_get (kv : gmap string PropertyValue)
  (value : string) :
  refuses (SetProviderURL None value)
  ∧ ∃ inputs', SetProviderURL (Some kv) value = Ret inputs'
      ∧ GetProviderDownloadURL inputs' = (value, None)
      ∧ GetProviderVersion inputs' = GetProviderVersion (Some kv)
      ∧ ∀ k, k ≠ pluginDownloadKey → pm_get inputs' k = kv !! k.
Proof.
  split; [by eexists|]. eexists. split; [reflexivity|].
  unfold GetProviderDownloadURL, GetProviderVersion; cbn.
  rewrite lookup_insert_eq, lookup_insert_ne by done. split_and!; [done..|].
  intros k Hk. by rewrite lookup_insert_ne.
Qed.

(** Writing a version and reading it back: when the tolerant parser reads
    the printed form of [v] back as [v], [GetProviderVersion] after
    [SetProviderVersion] yields [v] and no error, and every other key, the
    download URL included, reads as before. *)
Theorem SetProviderVersion_then_get (kv : gmap string PropertyValue)
  (v : Version) :
  ParseTolerant (Version_String v) = inl v →
  ∃ inputs', SetProviderVersion (Some kv) (Some v) = Ret inputs'
    ∧ GetProviderVersion inputs' = (Some v, None)
    ∧ GetProviderDownloadURL inputs' = GetProviderDownloadURL (Some kv)
    ∧ ∀ k, k ≠ versionKey → pm_get inputs' k = kv !! k.
Proof.
  intros Hparse. eexists. split; [reflexivity|].
  unfold GetProviderDownloadURL, GetProviderVersion; cbn.
  rewrite lookup_insert_eq, lookup_insert_ne by done; cbn. rewrite Hparse.
  split_and!; [done..|].
  intros k Hk. by rewrite lookup_insert_ne.
Qed.

(** What [GetProviderVersion] answers: nothing at all exactly when the
    [version] key is absent (as in a nil map); a version exactly when the
    entry is a string the tolerant parser accepts, and then that parse; an
    error otherwise, never together with a version. *)
Theorem GetProviderVersion_answers (inputs : PropertyMap) :
  GetProviderVersion None = (None, None)
  ∧ (GetProviderVersion inputs = (None, None)
     ↔ pm_get inputs versionKey = None)
  ∧ (∀ v, (GetProviderVersion inputs).1 = Some v
          ↔ ∃ s, pm_get inputs versionKey = Some (StringProperty s)
                 ∧ ParseTolerant s = inl v)
  ∧ (is_Some (GetProviderVersion inputs).2
     ↔ ∃ x, pm_get inputs versionKey = Some x
            ∧ (IsString x = false ∨ ∃ e, ParseTolerant (StringValue x) = inr e))
  ∧ ¬ (is_Some (GetProviderVersion inputs).1
       ∧ is_Some (GetProviderVersion inputs).2).
Proof.
  unfold GetProviderVersion.
  destruct (pm_get inputs versionKey) as [x|] eqn:Hx; cbn.
  2:{ split_and!; try done.
      - intros v; split; [done|]. by intros (s & ? & _).
      - split; [by intros [? ?]|]. by intros (? & ? & _).
      - by intros [[? ?] _]. }
  destruct x; cbn;
    try (split_and!; try done;
         [ intros v; split; [done|]; by intros (s & ? & _)
         | split; [eauto|by eexists]
         | by intros [[? ?] _] ]).
  destruct (ParseTolerant s) as [sv|e] eqn:Hp; cbn; split_and!; try done.
  - intros v; split.
    + intros [= ->]. eauto.
    + intros (s' & [= <-] & Hs'). congruence.
  - split; [by intros [? ?]|].
    intros (x & [= <-] & [?|[e He]]); [done|]. cbn in He. congruence.
  - by intros [_ [? ?]].
  - intros v; split; [done|]. intros (s' & [= <-] & Hs'). congruence.
  - split; [|by eexists]. intros _. eexists; split; [done|]. right. eauto.
  - by intros [[? ?] _].
Qed.

End InputKeys.

Lemma SetProviderVersion_then_get_witness :
  ParseTolerant (Version_String (mkVersion 2 0 0 [] []))
  = inl (mkVersion 2 0 0 [] [])
  ∧ ∃ inputs',
      SetProviderVersion (Some ∅) (Some (mkVersion 2 0 0 [] [])) = Ret inputs'
      ∧ GetProviderVersion inputs' = (Some (mkVersion 2 0 0 [] []), None).
Proof.
  assert (ParseTolerant (Version_String (mkVersion 2 0 0 [] []))
          = inl (mkVersion 2 0 0 [] [])) as Hp by reflexivity.
  split; [exact Hp|].
  destruct (SetProviderVersion_then_get ∅ (mkVersion 2 0 0 [] []) Hp)
    as (inputs' & Hset & Hget & _).
  exists inputs'. split; [exact Hset|exact Hget].
Defined.

(** ** Check before the plugin is asked *)

Section CheckEarly.
Context `{Ext : Externals}.

(** A [pluginDownloadURL] entry that is not a string: [Check] makes no call
    at all, and on a provider URN whose [version] entry is fine it returns
    nil inputs, the single failure on property [pluginDownloadURL] and no
    error, the registry as it was. *)
Theorem Check_bad_download_url (r : Registry) (urn : URN)
  (olds news : PropertyMap) (au : bool) (seed : list N) (u : PropertyValue) :
  pm_get news pluginDownloadKey = Some u →
  IsString u = false →
  (∀ (World : Type) (env : Env World) (w : World),
      trace_of env (Check r urn olds news au seed) w = [])
  ∧ (IsProviderType (URN_Type urn) = true →
     (GetProviderVersion news).2 = None →
     Check r urn olds news au seed
     = Ret ((None,
             [mkCheckFailure "pluginDownloadURL"
                "'pluginDownloadURL' must be a string"], None), r)).
Proof.
  intros Hu Hns.
  assert (GetProviderDownloadURL news
          = ("", Some (errorString "'pluginDownloadURL' must be a string")))
    as Hurl.
  { unfold GetProviderDownloadURL. by rewrite Hu, Hns. }
  split.
  - intros World env w. unfold trace_of, Check. rewrite Hurl.
    destruct (IsProviderType (URN_Type urn)); [|done].
    by destruct (GetProviderVersion news) as [version [e|]].
  - intros Hty Hver. unfold Check. rewrite Hty, Hurl.
    destruct (GetProviderVersion news) as [version [e|]]; [done|]. reflexivity.
Qed.

End CheckEarly.

Lemma Check_bad_download_url_witness :
  pm_get Demo.bad_url pluginDownloadKey = Some (NumberProperty 1)
  ∧ IsString (NumberProperty 1) = false
  ∧ trace_of Demo.env (Check Demo.r0 Demo.awsURN None Demo.bad_url false [])
      Demo.w0 = []
  ∧ Check Demo.r0 Demo.awsURN None Demo.bad_url false []
    = Ret ((None,
            [mkCheckFailure "pluginDownloadURL"
               "'pluginDownloadURL' must be a string"], None), Demo.r0).
Proof.
  assert (pm_get Demo.bad_url pluginDownloadKey = Some (NumberProperty 1))
    as Hu by reflexivity.
  split; [exact Hu|]. split; [reflexivity|].
  destruct (Check_bad_download_url Demo.r0 Demo.awsURN None Demo.bad_url
              false [] _ Hu eq_refl) as [Hquiet Hret].
  split; [exact (Hquiet _ Demo.env Demo.w0)|].
  exact (Hret eq_refl eq_refl).
Defined.

Section CheckLoad.
Context `{Ext : Externals} {World : Type} (env : Env World).

Local Arguments loadProvider : simpl never.

(** A load that fails: when the loader, run on the package of the URN with
    the version and download URL of the new inputs, answers an error or a
    nil provider, the run of [Check] is the loader's run and nothing more
    (no [CheckConfig], nothing closed), and [Check] returns nil inputs, no
    failures and the loader's error, or [could not find plugin] for a nil
    provider, with the registry as it was. *)
Theorem Check_load_failure (w w1 : World) (r : Registry) (urn : URN)
  (olds news : PropertyMap) (au : bool) (seed : list N)
  (version : option Version) (url : string) (p : Provider)
  (oe : option error) (t1 : list Event) :
  IsProviderType (URN_Type urn) = true →
  GetProviderVersion news = (version, None) →
  GetProviderDownloadURL news = (url, None) →
  run env (loadProvider (GetProviderPackage (URN_Type urn)) version url None
             (builtins r)) w
  = (Returned (p, oe), w1, t1) →
  oe ≠ None ∨ p = None →
  run env (Check r urn olds news au seed) w
  = (Returned ((None, [],
                Some (default (errorString "could not find plugin") oe)), r),
     w1, t1)
  ∧ closes t1 = [].
Proof.
  intros Hty Hver Hurl Hload Hfail.
  pose proof (loadProvider_trace env w (GetProviderPackage (URN_Type urn))
                version url None (builtins r)) as Hld.
  apply loader_trace_closes in Hld as (Hc & _ & _). unfold trace_of in Hc.
  rewrite Hload in Hc. cbn in Hc. split; [|done].
  unfold Check. rewrite Hty, Hver, Hurl. cbn. rewrite run_bind, Hload.
  destruct oe as [e|]; cbn; [by rewrite app_nil_r|].
  destruct Hfail as [?| ->]; [done|]. cbn. by rewrite app_nil_r.
Qed.

End CheckLoad.

Lemma Check_load_failure_witness :
  IsProviderType (URN_Type Demo.brokenURN) = true
  ∧ run Demo.env (Check Demo.r0 Demo.brokenURN None None false []) Demo.w0
    = (Returned ((None, [], Some (errorString "plugin crashed on start")),
                 Demo.r0), Demo.w0,
       [EvProvider "broken" None
          (None, Some (errorString "plugin crashed on start"))]).
Proof.
  split; [reflexivity|].
  refine (proj1 (Check_load_failure Demo.env Demo.w0 Demo.w0 Demo.r0
                   Demo.brokenURN None None false [] None "" None
                   (Some (errorString "plugin crashed on start"))
                   [EvProvider "broken" None
                      (None, Some (errorString "plugin crashed on start"))]
                   eq_refl eq_refl eq_refl eq_refl _)).
  left. discriminate.
Defined.

(** ** More on the plugin loader *)

Section LoaderPaths.
Context `{Ext : Externals} {World : Type} (env : Env World).

(** Where the provider of a successful load comes from: a [loadProvider]
    that returns without error hands back either the builtin provider,
    having asked the host for nothing, or the provider of the last
    [host.Provider] answer; and [loadProvider] never panics. *)
Theorem loadProvider_provenance (w : World) (pkg : Package)
  (version : option Version) (downloadURL : string)
  (checksums : option (gmap string (list N))) (builtins : Provider) :
  returns (outcome_of env
             (loadProvider pkg version downloadURL checksums builtins) w) = true
  ∧ ∀ p, outcome_of env
           (loadProvider pkg version downloadURL checksums builtins) w
         = Returned (p, None) →
      (p = builtins ∧ builtins ≠ None
       ∧ ∃ b, trace_of env
                (loadProvider pkg version downloadURL checksums builtins) w
              = [EvPkg b pkg])
      ∨ last (provider_answers
                (trace_of env
                   (loadProvider pkg version downloadURL checksums builtins) w))
        = Some (p, None).
Proof.
  unfold outcome_of, trace_of, loadProvider. split.
  - crunch env; done.
  - intros p.
    destruct builtins as [b|]; cbn.
    + destruct (env _ (PluginPkg b) w) as [pk w1].
      destruct (bool_decide (pkg = pk)) eqn:Hpk; cbn.
      { apply bool_decide_eq_true in Hpk as <-. intros [= <-]. left. eauto. }
      crunch env; intros; simplify_eq; by right.
    + crunch env; intros; simplify_eq; by right.
Qed.

(** How often the host is asked: [loadProvider] calls [host.Provider] at
    most twice, each time with the package and version it was given; a
    second call happens only after the first was answered with a
    [MissingError] and the workspace downloaded and installed the plugin,
    from a specification with the package, download URL and checksums
    given, and then the second answer is what [loadProvider] returns. *)
Theorem loadProvider_asks_host_at_most_twice (w : World) (pkg : Package)
  (version : option Version) (downloadURL : string)
  (checksums : option (gmap string (list N))) (builtins : Provider) :
  (length (provider_answers
             (trace_of env
                (loadProvider pkg version downloadURL checksums builtins) w))
   ≤ 2)%nat
  ∧ (∀ pkg' version' res,
       EvProvider pkg' version' res
         ∈ trace_of env
             (loadProvider pkg version downloadURL checksums builtins) w →
       pkg' = pkg ∧ version' = version)
  ∧ (∀ a1 a2,
       provider_answers
         (trace_of env
            (loadProvider pkg version downloadURL checksums builtins) w)
       = [a1; a2] →
       (∃ p e, a1 = (p, Some e) ∧ errors_As_MissingError e = true)
       ∧ outcome_of env
           (loadProvider pkg version downloadURL checksums builtins) w
         = Returned a2
       ∧ ∃ spec file,
           spec_for pkg downloadURL checksums spec
           ∧ EvDownloadToFile spec (file, None)
               ∈ trace_of env
                   (loadProvider pkg version downloadURL checksums builtins) w
           ∧ EvInstall spec file false None
               ∈ trace_of env
                   (loadProvider pkg version downloadURL checksums builtins) w).
Proof.
  unfold outcome_of, trace_of, loadProvider, spec_for. split_and!.
  - crunch env; lia.
  - intros pkg' version' res.
    crunch env; intros; inv_elem; done.
  - intros a1 a2.
    crunch env; intros; simplify_eq;
      (split; [eexists _, _; split; [reflexivity|by apply negb_false_iff]|]);
      (split; [done|]); eexists _, _;
      (split; [|split;
                repeat first [apply list_elem_of_here
                             | apply list_elem_of_further]]); done.
Qed.

(** Failures of the workspace: a failed version resolution, which happens
    only when no version was requested, comes back as an ordinary error
    wrapping the cause, and nothing is downloaded; a failed download or
    install comes back as an [InstallProviderError] that names the package,
    the version as it was requested (nil when the latest version was
    resolved) and the download URL, and wraps the cause, a failed download
    leaving nothing to install; in each case the provider is nil and the
    host is not asked a second time. *)
Theorem loadProvider_workspace_failure (w : World) (pkg : Package)
  (version : option Version) (downloadURL : string)
  (checksums : option (gmap string (list N))) (builtins : Provider) :
  (∀ spec latest e,
     EvGetLatestVersion spec (latest, Some e)
       ∈ trace_of env (loadProvider pkg version downloadURL checksums builtins) w →
     version = None
     ∧ (∃ msg,
          outcome_of env
            (loadProvider pkg version downloadURL checksums builtins) w
          = Returned (None, Some (wrapError msg e)))
     ∧ length (provider_answers
                 (trace_of env
                    (loadProvider pkg version downloadURL checksums builtins) w))
       = 1%nat
     ∧ ∀ s x, EvDownloadToFile s x
                ∉ trace_of env
                    (loadProvider pkg version downloadURL checksums builtins) w)
  ∧ (∀ spec file e,
       EvDownloadToFile spec (file, Some e)
         ∈ trace_of env
             (loadProvider pkg version downloadURL checksums builtins) w →
       spec_for pkg downloadURL checksums spec
       ∧ (∃ msg,
            outcome_of env
              (loadProvider pkg version downloadURL checksums builtins) w
            = Returned (None,
                        Some (InstallProviderError pkg version downloadURL
                                (wrapError msg e))))
       ∧ length (provider_answers
                   (trace_of env
                      (loadProvider pkg version downloadURL checksums builtins)
                      w))
         = 1%nat
       ∧ ∀ s f re x, EvInstall s f re x
                       ∉ trace_of env
                           (loadProvider pkg version downloadURL checksums
                              builtins) w)
  ∧ (∀ spec file re e,
       EvInstall spec file re (Some e)
         ∈ trace_of env
             (loadProvider pkg version downloadURL checksums builtins) w →
       spec_for pkg downloadURL checksums spec ∧ re = false
       ∧ (∃ msg,
            outcome_of env
              (loadProvider pkg version downloadURL checksums builtins) w
            = Returned (None,
                        Some (InstallProviderError pkg version downloadURL
                                (wrapError msg e))))
       ∧ length (provider_answers
                   (trace_of env
                      (loadProvider pkg version downloadURL checksums builtins)
                      w))
         = 1%nat).
Proof.
  unfold outcome_of, trace_of, loadProvider, spec_for. split_and!.
  - intros spec latest e.
    crunch env; intros Hin; inv_elem;
      (split_and!; try done; try (by eexists)); intros ? ? Hin'; inv_elem.
  - intros spec file e.
    crunch env; intros Hin; inv_elem;
      (split_and!; try done; try (by eexists)); intros ? ? ? ? Hin'; inv_elem.
  - intros spec file re e.
    crunch env; intros Hin; inv_elem; split_and!; try done; by eexists.
Qed.

End LoaderPaths.

(** A missing plugin with a requested version: the download is refused, and
    the loader answers the install error that names package and version. *)
Example loader_download_refused :
  run Demo.env (loadProvider "absent" (Some Demo.v200) "" None None) Demo.w0
  = (Returned
       (None,
        Some (InstallProviderError "absent" (Some Demo.v200) ""
                (wrapError
                   "error downloading provider absent to file: 403 forbidden"
                   (errorString "403 forbidden")))),
     Demo.w0,
     [EvProvider "absent" (Some Demo.v200)
        (None, Some (MissingError "no resource plugin 'absent' found"));
      EvDownloadToFile
        (mkPluginSpec ResourcePlugin "absent" (Some Demo.v200) "" None)
        ("", Some (errorString "403 forbidden"))]).
Proof. reflexivity. Qed.

(** ** NewRegistry *)

Section NewRegistryProps.
Context `{Ext : Externals} {World : Type} (env : Env World).

Local Arguments loadProvider : simpl never.

Lemma loader_trace_uneventful (t : list Event) :
  Forall (λ e, is_loader_call e = true) t →
  Forall (λ e, uneventful e = true) t.
Proof. intros H. eapply Forall_impl; [exact H|]. by intros []. Qed.

Lemma uneventful_closes (t : list Event) :
  Forall (λ e, uneventful e = true) t → closes t = [].
Proof.
  induction 1 as [|e t He Ht IH]; [done|].
  unfold closes in *. destruct e; simplify_eq/=; done.
Qed.

Lemma NewRegistry_loop_success (prev : list State) :
  ∀ (r r' : Registry) (w w' : World) (tr : list Event),
    run env (NewRegistry_loop prev r) w = (Returned (Some r', None), w', tr) →
    isPreview r' = isPreview r ∧ builtins r' = builtins r
    ∧ aliases r' = aliases r
    ∧ Forall (λ e, uneventful e = true) tr
    ∧ NoDup (old_provider_refs prev)
    ∧ (∀ ref, ref ∈ old_provider_refs prev →
         providers r !! ref = None ∧ ref_id ref ≠ "" ∧ ref_id ref ≠ UnknownID
         ∧ validReference (ref_urn ref) (ref_id ref) = true)
    ∧ (∀ ref, ref ∉ old_provider_refs prev →
         providers r' !! ref = providers r !! ref)
    ∧ (∀ res, res ∈ prev → IsProviderType (URN_Type (StateURN res)) = true →
         ∃ h, providers r' !! state_ref res = Some (Some h)
              ∧ EvConfigure h (Inputs res) None ∈ tr).
Proof.
  induction prev as [|res prev IH]; intros r r' w w' tr Hrun.
  - cbn in Hrun. simplify_eq. split_and!; try done.
    + constructor.
    + intros ref Hin. by apply elem_of_nil in Hin.
    + intros res Hin. by apply elem_of_nil in Hin.
  - cbn [NewRegistry_loop] in Hrun. unfold old_provider_refs.
    cbn [omap list_omap].
    destruct (IsProviderType (URN_Type (StateURN res))) eqn:Hty; cbn in Hrun.
    2:{ apply IH in Hrun as (? & ? & ? & ? & ? & ? & ? & Hreg).
        split_and!; try done.
        intros res' [->|Hin]%elem_of_cons Hty'; [congruence|]. by apply Hreg. }
    destruct (bool_decide (StateID res = "")
              || bool_decide (StateID res = UnknownID)) eqn:Hid;
      cbn in Hrun; [done|].
    apply orb_false_iff in Hid as [Hid1 Hid2].
    apply bool_decide_eq_false in Hid1, Hid2.
    unfold mustNewReference in Hrun.
    destruct (validReference (StateURN res) (StateID res)) eqn:Hvalid;
      cbn in Hrun; [|done].
    unfold GetProvider in Hrun.
    destruct (providers r !! mkReference (StateURN res) (StateID res))
      as [?|] eqn:Hfresh; cbn in Hrun; [done|].
    destruct (GetProviderVersion (Inputs res)) as [version [?|]];
      cbn in Hrun; [done|].
    destruct (GetProviderDownloadURL (Inputs res)) as [url [?|]];
      cbn in Hrun; [done|].
    rewrite run_bind in Hrun.
    pose proof (loadProvider_trace env w
                  (GetProviderPackage (URN_Type (StateURN res)))
                  version url None (builtins r)) as Hld.
    apply loader_trace_uneventful in Hld. unfold trace_of in Hld.
    destruct (run env (loadProvider _ _ _ _ _) w)
      as [[[[prov lerr]|msg] w1] t1]; cbn in Hrun, Hld; [|done].
    destruct lerr as [?|]; cbn in Hrun; [done|].
    destruct prov as [h|]; cbn in Hrun; [|done].
    destruct (env _ (PluginConfigure h (Inputs res)) w1) as [[?|] w2];
      cbn in Hrun.
    { by destruct (env _ (HostCloseProvider (Some h)) w2). }
    destruct (run env (NewRegistry_loop prev _) w2) as [[out w3] t2] eqn:Hrest.
    cbn in Hrun. simplify_eq.
    apply IH in Hrest as (Hp & Hb & Ha & Hq & Hnd & Hnew & Hold & Hreg).
    cbn in Hp, Hb, Ha, Hnew, Hold.
    fold (state_ref res) in *. fold (old_provider_refs prev) in *.
    assert (state_ref res ∉ old_provider_refs prev) as Hnotin.
    { intros Hin. apply Hnew in Hin as [Hin _].
      by rewrite lookup_insert_eq in Hin. }
    split_and!; try done.
    + apply Forall_app. split; [done|]. by constructor.
    + by constructor.
    + intros ref [->|Hin]%elem_of_cons; [done|].
      destruct (Hnew _ Hin) as (Hlk & ? & ? & ?). split_and!; [|done..].
      rewrite lookup_insert_ne in Hlk; [done|]. by intros <-.
    + intros ref [Hne Hnin]%not_elem_of_cons.
      rewrite Hold by done. by apply lookup_insert_ne.
    + intros res' [->|Hin]%elem_of_cons Hty'.
      * exists h. rewrite Hold by done. rewrite lookup_insert_eq.
        split; [done|]. apply elem_of_app. right. apply list_elem_of_here.
      * destruct (Hreg _ Hin Hty') as (h' & ? & ?). exists h'.
        split; [done|]. apply elem_of_app. right. by apply list_elem_of_further.
Qed.

Lemma NewRegistry_loop_close (prev : list State) :
  ∀ (r : Registry) (w : World),
    Forall (λ e, uneventful e = true) (trace_of env (NewRegistry_loop prev r) w)
    ∨ ∃ pre h inputs e closeErr urn,
        trace_of env (NewRegistry_loop prev r) w
        = pre ++ [EvConfigure h inputs (Some e);
                  EvCloseProvider (Some h) closeErr]
        ∧ Forall (λ e, uneventful e = true) pre
        ∧ outcome_of env (NewRegistry_loop prev r) w
          = Returned (None,
                      Some (errorString ("could not configure provider '"
                                         ++ urn ++ "': " ++ Error e))).
Proof.
  unfold trace_of, outcome_of.
  induction prev as [|res prev IH]; intros r w.
  - left. constructor.
  - cbn [NewRegistry_loop].
    destruct (IsProviderType (URN_Type (StateURN res))); cbn; [|apply IH].
    destruct (bool_decide (StateID res = "")
              || bool_decide (StateID res = UnknownID));
      cbn; [left; constructor|].
    unfold mustNewReference.
    destruct (validReference (StateURN res) (StateID res)); cbn;
      [|left; constructor].
    unfold GetProvider.
    destruct (providers r !! mkReference (StateURN res) (StateID res));
      cbn; [left; constructor|].
    destruct (GetProviderVersion (Inputs res)) as [version [?|]];
      cbn; [left; constructor|].
    destruct (GetProviderDownloadURL (Inputs res)) as [url [?|]];
      cbn; [left; constructor|].
    rewrite run_bind.
    pose proof (loadProvider_trace env w
                  (GetProviderPackage (URN_Type (StateURN res)))
                  version url None (builtins r)) as Hld.
    apply loader_trace_uneventful in Hld. unfold trace_of in Hld.
    destruct (run env (loadProvider _ _ _ _ _) w)
      as [[[[prov lerr]|msg] w1] t1]; cbn in Hld |- *; [|by left].
    destruct lerr as [?|]; cbn; [rewrite app_nil_r; by left|].
    destruct prov as [h|]; cbn; [|rewrite app_nil_r; by left].
    destruct (env _ (PluginConfigure h (Inputs res)) w1) as [[e|] w2]; cbn.
    { destruct (env _ (HostCloseProvider (Some h)) w2) as [ce w3]; cbn.
      right. by exists t1, h, (Inputs res), e, ce, (StateURN res). }
    destruct (IH (with_providers r
                    (<[mkReference (StateURN res) (StateID res) := Some h]>
                       (providers r))) w2)
      as [Hq|(pre & h' & inputs & e & ce & urn & Htr & Hq & Hout)].
    + destruct (run env (NewRegistry_loop prev _) w2) as [[out w3] t2]; cbn in *.
      left. apply Forall_app. split; [done|]. by constructor.
    + destruct (run env (NewRegistry_loop prev _) w2) as [[out w3] t2]; cbn in *.
      right. exists (t1 ++ EvConfigure h (Inputs res) None :: pre), h', inputs,
               e, ce, urn.
      split_and!; [|by apply Forall_app; split; [|constructor]|done].
      rewrite Htr. by rewrite <- app_assoc.
Qed.

(** What a registry built from old state holds: when [NewRegistry] returns
    a registry, it carries the preview flag and the builtin provider it was
    given and no alias; it holds exactly one reference per provider
    resource of the old state, [(URN, ID)] of that resource, with a non-nil
    handle that was configured with the resource's inputs; resources that
    are not providers leave nothing; and nothing was closed on the way. *)
Theorem NewRegistry_registers_old_providers (prev : list State)
  (isPreview_ : bool) (builtins_ : Provider) (w : World) (reg : Registry) :
  outcome_of env (NewRegistry prev isPreview_ builtins_) w
  = Returned (Some reg, None) →
  isPreview reg = isPreview_ ∧ builtins reg = builtins_ ∧ aliases reg = ∅
  ∧ closes (trace_of env (NewRegistry prev isPreview_ builtins_) w) = []
  ∧ (∀ ref, is_Some (providers reg !! ref) ↔ ref ∈ old_provider_refs prev)
  ∧ (∀ res, res ∈ prev → IsProviderType (URN_Type (StateURN res)) = true →
       ∃ h, GetProvider reg (mkReference (StateURN res) (StateID res))
            = (Some h, true)
            ∧ EvConfigure h (Inputs res) None
                ∈ trace_of env (NewRegistry prev isPreview_ builtins_) w).
Proof.
  unfold outcome_of, trace_of, NewRegistry. intros Hout.
  destruct (run env (NewRegistry_loop prev _) w) as [[out w'] tr] eqn:Hrun.
  cbn in Hout; subst out.
  apply NewRegistry_loop_success in Hrun
    as (Hp & Hb & Ha & Hq & Hnd & Hnew & Hold & Hreg).
  cbn in *. split_and!; try done.
  - by apply uneventful_closes.
  - intros ref. split.
    + intros Hsome. destruct (decide (ref ∈ old_provider_refs prev)); [done|].
      rewrite Hold, lookup_empty in Hsome by done. by destruct Hsome.
    + intros Hin. unfold old_provider_refs in Hin.
      apply list_elem_of_omap in Hin as (res & Hin & Hres).
      destruct (IsProviderType (URN_Type (StateURN res))) eqn:Hty; [|done].
      simplify_eq. destruct (Hreg _ Hin Hty) as (h & -> & _). by eexists.
  - intros res Hin Hty. destruct (Hreg _ Hin Hty) as (h & Hlk & Hev).
    exists h. split; [|done]. by apply GetProvider_Some.
Qed.

(** What old state [NewRegistry] refuses: when it returns a registry, no
    provider resource of the old state has an empty or unknown id, and no
    two of them share URN and id. *)
Theorem NewRegistry_known_distinct_ids (prev : list State)
  (isPreview_ : bool) (builtins_ : Provider) (w : World) (reg : Registry) :
  outcome_of env (NewRegistry prev isPreview_ builtins_) w
  = Returned (Some reg, None) →
  NoDup (old_provider_refs prev)
  ∧ ∀ ref, ref ∈ old_provider_refs prev →
      ref_id ref ≠ "" ∧ ref_id ref ≠ UnknownID.
Proof.
  unfold outcome_of, NewRegistry. intros Hout.
  destruct (run env (NewRegistry_loop prev _) w) as [[out w'] tr] eqn:Hrun.
  cbn in Hout; subst out.
  apply NewRegistry_loop_success in Hrun
    as (_ & _ & _ & _ & Hnd & Hnew & _ & _).
  split; [done|]. intros ref Hin. by destruct (Hnew _ Hin) as (_ & ? & ? & _).
Qed.

(** A provider of the old state that cannot be configured: when a
    [Configure] call of [NewRegistry] is answered with an error,
    [NewRegistry] closes that handle as its last call, closes nothing else,
    and returns no registry but the error [could not configure provider];
    and when no [Configure] fails, [NewRegistry] closes nothing. *)
Theorem NewRegistry_configure_failure (prev : list State)
  (isPreview_ : bool) (builtins_ : Provider) (w : World) :
  (∀ h inputs e,
     EvConfigure h inputs (Some e)
       ∈ trace_of env (NewRegistry prev isPreview_ builtins_) w →
     closes (trace_of env (NewRegistry prev isPreview_ builtins_) w) = [Some h]
     ∧ (∃ pre closeErr,
          trace_of env (NewRegistry prev isPreview_ builtins_) w
          = pre ++ [EvConfigure h inputs (Some e);
                    EvCloseProvider (Some h) closeErr])
     ∧ ∃ urn,
         outcome_of env (NewRegistry prev isPreview_ builtins_) w
         = Returned (None,
                     Some (errorString ("could not configure provider '"
                                        ++ urn ++ "': " ++ Error e))))
  ∧ ((∀ h inputs e,
        EvConfigure h inputs (Some e)
          ∉ trace_of env (NewRegistry prev isPreview_ builtins_) w) →
     closes (trace_of env (NewRegistry prev isPreview_ builtins_) w) = []).
Proof.
  unfold NewRegistry.
  destruct (NewRegistry_loop_close prev (mkRegistry isPreview_ ∅ builtins_ ∅) w)
    as [Hq|(pre & h' & inputs' & e' & ce & urn & Htr & Hq & Hout)].
  - split.
    + intros h inputs e Hin.
      eapply Forall_forall in Hq; [|exact Hin]. done.
    + intros _. by apply uneventful_closes.
  - split.
    + intros h inputs e Hin. rewrite Htr in Hin |- *.
      apply elem_of_app in Hin as [Hin|Hin].
      { eapply Forall_forall in Hq; [|exact Hin]. done. }
      inv_elem. split_and!.
      * unfold closes. rewrite omap_app. fold (closes pre).
        by rewrite (uneventful_closes _ Hq).
      * eauto.
      * eauto.
    + intros Hno. exfalso. apply (Hno h' inputs' e'). rewrite Htr.
      apply elem_of_app. right. apply list_elem_of_here.
Qed.

End NewRegistryProps.

Lemma NewRegistry_registers_old_providers_witness :
  outcome_of Demo.env (NewRegistry Demo.prior false None) Demo.w0
  = Returned (Some Demo.r_prior, None)
  ∧ closes (trace_of Demo.env (NewRegistry Demo.prior false None) Demo.w0) = []
  ∧ ∀ ref, is_Some (providers Demo.r_prior !! ref)
           ↔ ref ∈ old_provider_refs Demo.prior.
Proof.
  assert (outcome_of Demo.env (NewRegistry Demo.prior false None) Demo.w0
          = Returned (Some Demo.r_prior, None)) as Hout by reflexivity.
  split; [exact Hout|].
  destruct (NewRegistry_registers_old_providers Demo.env Demo.prior false None
              Demo.w0 Demo.r_prior Hout) as (_ & _ & _ & Hcl & Hrefs & _).
  split; [exact Hcl|exact Hrefs].
Defined.

Lemma NewRegistry_known_distinct_ids_witness :
  outcome_of Demo.env (NewRegistry Demo.prior false None) Demo.w0
  = Returned (Some Demo.r_prior, None)
  ∧ NoDup (old_provider_refs Demo.prior).
Proof.
  assert (outcome_of Demo.env (NewRegistry Demo.prior false None) Demo.w0
          = Returned (Some Demo.r_prior, None)) as Hout by reflexivity.
  split; [exact Hout|].
  exact (proj1 (NewRegistry_known_distinct_ids Demo.env Demo.prior false None
                  Demo.w0 Demo.r_prior Hout)).
Defined.

(** The same provider twice in the old state, and one with the unknown id:
    no registry. *)
Example demo_duplicate_prior :
  run Demo.env (NewRegistry (Demo.prior ++ Demo.prior) false None) Demo.w0
  = (Returned
       (None,
        Some (errorString
                ("duplicate provider found in old state: '"
                 ++ Demo.awsURN ++ "::id0'"))),
     Demo.w_prior,
     [EvProvider "aws" (Some (mkVersion 2 0 0 [] [])) (Some 0, None);
      EvConfigure 0 Demo.v2 None])
  ∧ run Demo.env
      (NewRegistry [mkState Demo.awsURN UnknownID Demo.v2 ""] false None)
      Demo.w0
    = (Returned
         (None,
          Some (errorString ("provider '" ++ Demo.awsURN
                             ++ "' has an unknown ID"))),
       Demo.w0, []).
Proof. split; reflexivity. Qed.

(** A provider of the old state whose configuration is rejected. *)
Example demo_prior_rejected :
  run Demo.env (NewRegistry Demo.prior_reject false None) Demo.w0
  = (Returned
       (None,
        Some (errorString
                ("could not configure provider '" ++ Demo.awsURN
                 ++ "': configuration rejected"))),
     Demo.w_prior,
     [EvProvider "aws" (Some (mkVersion 2 0 0 [] [])) (Some 0, None);
      EvConfigure 0 Demo.v2_reject (Some (errorString "configuration rejected"));
      EvCloseProvider (Some 0) None]).
Proof. reflexivity. Qed.

(** ** Laws of the provider map *)

Section MapLaws.
Context `{Ext : Externals}.

(** [deleteProvider] and [GetProvider]: deleting answers what [GetProvider]
    answered, afterwards [GetProvider] misses the reference, every other
    reference and the aliases are untouched, and deleting a reference that
    is not registered changes nothing. *)
Theorem deleteProvider_then_get (r : Registry) (ref : Reference) :
  (deleteProvider r ref).1 = GetProvider r ref
  ∧ GetProvider (deleteProvider r ref).2 ref = (None, false)
  ∧ (∀ ref', ref' ≠ ref →
       GetProvider (deleteProvider r ref).2 ref' = GetProvider r ref')
  ∧ aliases (deleteProvider r ref).2 = aliases r
  ∧ ((GetProvider r ref).2 = false → (deleteProvider r ref).2 = r).
Proof.
  unfold deleteProvider, GetProvider.
  destruct (providers r !! ref) as [p|] eqn:Hlk; cbn.
  - rewrite lookup_delete_eq. split_and!; try done.
    intros ref' Hne. by rewrite lookup_delete_ne.
  - rewrite Hlk. split_and!; done.
Qed.

(** [setProvider] and then [deleteProvider]: for a reference that is not
    registered and whose URN has no alias, [setProvider] returns, the
    provider is then found under the reference, no other reference
    changed, and [deleteProvider] hands the provider back and restores the
    registry. *)
Theorem setProvider_then_delete (r : Registry) (ref : Reference)
  (p : Provider) :
  aliases r !! ref_urn ref = None →
  providers r !! ref = None →
  ∃ r1, setProvider r ref p = Ret r1
    ∧ GetProvider r1 ref = (p, true)
    ∧ (∀ ref', ref' ≠ ref → GetProvider r1 ref' = GetProvider r ref')
    ∧ deleteProvider r1 ref = ((p, true), r).
Proof.
  intros Hal Hlk. unfold setProvider; cbn. rewrite Hal. eexists.
  split; [reflexivity|]. unfold GetProvider, deleteProvider; cbn.
  rewrite lookup_insert_eq. split_and!; [done| |].
  - intros ref' Hne. by rewrite lookup_insert_ne.
  - unfold with_providers; cbn. rewrite delete_insert_id by done.
    by destruct r.
Qed.

(** What [setProvider] writes: the reference, the reference its URN is
    aliased to with the same id, and nothing else; the aliases, the preview
    flag and the builtin provider stay. *)
Theorem setProvider_writes_two (r r1 : Registry) (ref : Reference)
  (p : Provider) :
  setProvider r ref p = Ret r1 →
  GetProvider r1 ref = (p, true)
  ∧ (∀ O, aliases r !! ref_urn ref = Some O →
       GetProvider r1 (mkReference O (ref_id ref)) = (p, true))
  ∧ (∀ ref', ref' ≠ ref →
       (∀ O, aliases r !! ref_urn ref = Some O →
             ref' ≠ mkReference O (ref_id ref)) →
       GetProvider r1 ref' = GetProvider r ref')
  ∧ aliases r1 = aliases r ∧ isPreview r1 = isPreview r
  ∧ builtins r1 = builtins r.
Proof.
  intros (Hp & Hb & Ha & Hps)%setProvider_Ret. unfold GetProvider.
  rewrite Hps. destruct (aliases r !! ref_urn ref) as [O|]; split_and!;
    try done.
  - destruct (decide (mkReference O (ref_id ref) = ref)) as [->|Hne].
    + by rewrite lookup_insert_eq.
    + by rewrite lookup_insert_ne, lookup_insert_eq.
  - intros O' [= <-]. by rewrite lookup_insert_eq.
  - intros ref' Hne Hal. specialize (Hal O eq_refl).
    by rewrite !lookup_insert_ne.
  - by rewrite lookup_insert_eq.
  - intros ref' Hne _. by rewrite lookup_insert_ne.
Qed.

End MapLaws.

Lemma setProvider_then_delete_witness :
  ∃ r1, setProvider Demo.r0 (mkReference Demo.awsURN "id0") (Some 3) = Ret r1
    ∧ GetProvider r1 (mkReference Demo.awsURN "id0") = (Some 3, true)
    ∧ deleteProvider r1 (mkReference Demo.awsURN "id0")
      = ((Some 3, true), Demo.r0).
Proof.
  destruct (setProvider_then_delete Demo.r0 (mkReference Demo.awsURN "id0")
              (Some 3) eq_refl eq_refl) as (r1 & Hset & Hget & _ & Hdel).
  exists r1. split; [exact Hset|]. split; [exact Hget|exact Hdel].
Defined.

Lemma setProvider_writes_two_witness :
  setProvider (RegisterAlias Demo.r0 Demo.awsURN Demo.oldURN)
    (mkReference Demo.awsURN "id0") (Some 3)
  = Ret (mkRegistry false
           (<[mkReference Demo.oldURN "id0" := Some 3]>
              (<[mkReference Demo.awsURN "id0" := Some 3]> ∅))
           None {[ Demo.awsURN := Demo.oldURN ]})
  ∧ GetProvider
      (mkRegistry false
         (<[mkReference Demo.oldURN "id0" := Some 3]>
            (<[mkReference Demo.awsURN "id0" := Some 3]> ∅))
         None {[ Demo.awsURN := Demo.oldURN ]})
      (mkReference Demo.awsURN "id0") = (Some 3, true).
Proof.
  assert (setProvider (RegisterAlias Demo.r0 Demo.awsURN Demo.oldURN)
            (mkReference Demo.awsURN "id0") (Some 3)
          = Ret (mkRegistry false
                   (<[mkReference Demo.oldURN "id0" := Some 3]>
                      (<[mkReference Demo.awsURN "id0" := Some 3]> ∅))
                   None {[ Demo.awsURN := Demo.oldURN ]})) as Hset
    by reflexivity.
  split; [exact Hset|].
  exact (proj1 (setProvider_writes_two _ _ _ _ Hset)).
Defined.

(** ** More on Same *)

Section SameProps.
Context `{Ext : Externals}.

(** [Same] with a live alias target: when the URN of the reference is
    aliased to [O] and a provider is registered under [(O, i)], the
    registry [Same] returns has that provider under the reference itself,
    still has it under [(O, i)], and differs from the old one in nothing
    else; and [Same] does return when [(O, i)] is a reference
    [mustNewReference] accepts. *)
Theorem Same_copies_alias_target (r : Registry) (N O : URN) (i : ID)
  (p : Provider) :
  aliases r !! N = Some O →
  providers r !! mkReference O i = Some p →
  (∀ r', Same r (mkReference N i) = Ret r' →
     GetProvider r' (mkReference N i) = (p, true)
     ∧ GetProvider r' (mkReference O i) = (p, true)
     ∧ (∀ ref', ref' ≠ mkReference N i →
          GetProvider r' ref' = GetProvider r ref')
     ∧ aliases r' = aliases r)
  ∧ (validReference O i = true → ∃ r', Same r (mkReference N i) = Ret r').
Proof.
  intros Hal Hlk. unfold Same, mustNewReference; cbn. rewrite Hal. split.
  - destruct (validReference O i); cbn; [|done]. rewrite Hlk; cbn.
    intros r' [= <-]. unfold GetProvider; cbn. rewrite lookup_insert_eq.
    split_and!; [done| |by intros ref' Hne; rewrite lookup_insert_ne|done].
    destruct (decide (mkReference O i = mkReference N i)) as [->|Hne].
    + by rewrite lookup_insert_eq.
    + by rewrite lookup_insert_ne, Hlk.
  - intros ->. cbn. by eexists.
Qed.

(** [Same] is idempotent: applied again to the registry it returned, it
    returns that registry. *)
Theorem Same_idempotent (r r1 : Registry) (ref : Reference) :
  Same r ref = Ret r1 → Same r1 ref = Ret r1.
Proof.
  unfold Same, mustNewReference.
  destruct (aliases r !! ref_urn ref) as [alias|] eqn:Hal; cbn.
  - destruct (validReference alias (ref_id ref)) eqn:Hv; cbn; [|done].
    intros [= <-]. cbn. rewrite Hal, Hv. cbn. f_equal.
    unfold with_providers; cbn. f_equal.
    destruct (decide (mkReference alias (ref_id ref) = ref)) as [Heq|Hne].
    + rewrite Heq, lookup_insert_eq. cbn. by rewrite insert_insert_eq.
    + rewrite lookup_insert_ne by done. by rewrite insert_insert_eq.
  - intros [= <-]. by rewrite Hal.
Qed.

End SameProps.

Lemma Same_copies_alias_target_witness :
  aliases Demo.r_aliased !! Demo.awsURN = Some Demo.oldURN
  ∧ providers Demo.r_aliased !! mkReference Demo.oldURN "id0" = Some (Some 0)
  ∧ ∃ r', Same Demo.r_aliased (mkReference Demo.awsURN "id0") = Ret r'
          ∧ GetProvider r' (mkReference Demo.awsURN "id0") = (Some 0, true)
          ∧ GetProvider r' (mkReference Demo.oldURN "id0") = (Some 0, true).
Proof.
  assert (aliases Demo.r_aliased !! Demo.awsURN = Some Demo.oldURN) as Hal
    by reflexivity.
  assert (providers Demo.r_aliased !! mkReference Demo.oldURN "id0"
          = Some (Some 0)) as Hlk by reflexivity.
  assert (validReference Demo.oldURN "id0" = true) as Hv by reflexivity.
  split; [exact Hal|]. split; [exact Hlk|].
  destruct (Same_copies_alias_target Demo.r_aliased Demo.awsURN Demo.oldURN
              "id0" (Some 0) Hal Hlk) as [Hcopy Hret].
  destruct (Hret Hv) as [r' HS].
  exists r'. split; [exact HS|].
  destruct (Hcopy r' HS) as (H1 & H2 & _). split; [exact H1|exact H2].
Defined.

Lemma Same_idempotent_witness :
  ∃ r1, Same Demo.r_aliased (mkReference Demo.awsURN "id0") = Ret r1
        ∧ Same r1 (mkReference Demo.awsURN "id0") = Ret r1.
Proof.
  assert (∃ r1, Same Demo.r_aliased (mkReference Demo.awsURN "id0") = Ret r1)
    as [r1 HS] by (eexists; reflexivity).
  exists r1. split; [exact HS|].
  exact (Same_idempotent Demo.r_aliased r1 (mkReference Demo.awsURN "id0") HS).
Defined.

(** ** Delete and Update *)

Section DeleteUpdate.
Context `{Ext : Externals} {World : Type} (env : Env World).

(** [Delete]: a run that returns happened outside a preview on a
    registered reference; it made one call, [host.CloseProvider] on the
    provider registered there; it answers [StatusOK] and no error whatever
    the host answered; and the registry it returns misses that reference
    and has every other one, the unknown-id reference of the URN included,
    as before.  During a preview, or on a reference that is not registered,
    [Delete] is a contract violation and calls nothing; otherwise, on a
    reference [mustNewReference] accepts, it returns. *)
Theorem Delete_effect (w : World) (r : Registry) (urn : URN) (id : ID)
  (props : PropertyMap) (timeout : Z) :
  (∀ res r',
     outcome_of env (Delete r urn id props timeout) w = Returned (res, r') →
     res = (StatusOK, None) ∧ isPreview r = false
     ∧ (∃ p closeErr,
          providers r !! mkReference urn id = Some p
          ∧ trace_of env (Delete r urn id props timeout) w
            = [EvCloseProvider p closeErr])
     ∧ GetProvider r' (mkReference urn id) = (None, false)
     ∧ (∀ ref', ref' ≠ mkReference urn id →
          GetProvider r' ref' = GetProvider r ref')
     ∧ aliases r' = aliases r)
  ∧ (isPreview r = true ∨ providers r !! mkReference urn id = None →
     returns (outcome_of env (Delete r urn id props timeout) w) = false
     ∧ trace_of env (Delete r urn id props timeout) w = [])
  ∧ (isPreview r = false → validReference urn id = true →
     is_Some (providers r !! mkReference urn id) →
     returns (outcome_of env (Delete r urn id props timeout) w) = true).
Proof.
  unfold outcome_of, trace_of, Delete, mustNewReference, deleteProvider,
    GetProvider.
  destruct (isPreview r); cbn.
  { split_and!; [done|done|]. intros; done. }
  destruct (validReference urn id); cbn.
  2:{ split_and!; [done|done|]. intros; done. }
  destruct (providers r !! mkReference urn id) as [p|] eqn:Hlk; cbn.
  - destruct (env _ (HostCloseProvider p) w) as [ce w1]; cbn. split_and!.
    + intros res r' [= <- <-]. cbn. rewrite lookup_delete_eq.
      split_and!; try done; [eauto|].
      intros ref' Hne. by rewrite lookup_delete_ne.
    + by intros [?|?].
    + done.
  - split_and!; [done|done|]. by intros _ _ [? ?].
Qed.

(** [Update]: a run that returns without error found a handle under
    [(urn, UnknownID)], sent it one [Configure] with the new inputs and
    nothing else, answers the new inputs and [StatusOK], and leaves that
    handle registered under [(urn, id)] as well; a [Configure] answered
    with an error is the whole run, and [Update] answers nil outputs,
    [StatusUnknown] and that error, with the registry as it was. *)
Theorem Update_effect (w : World) (r : Registry) (urn : URN) (id : ID)
  (olds news : PropertyMap) (timeout : Z) (ic : list string) (preview : bool) :
  (∀ outs st r',
     outcome_of env (Update r urn id olds news timeout ic preview) w
     = Returned ((outs, st, None), r') →
     outs = news ∧ st = StatusOK
     ∧ ∃ h, GetProvider r (mkReference urn UnknownID) = (Some h, true)
            ∧ trace_of env (Update r urn id olds news timeout ic preview) w
              = [EvConfigure h news None]
            ∧ GetProvider r' (mkReference urn id) = (Some h, true)
            ∧ (id ≠ UnknownID ∨ aliases r !! urn = None →
               GetProvider r' (mkReference urn UnknownID) = (Some h, true)))
  ∧ (∀ h e,
       EvConfigure h news (Some e)
         ∈ trace_of env (Update r urn id olds news timeout ic preview) w →
       outcome_of env (Update r urn id olds news timeout ic preview) w
       = Returned ((None, StatusUnknown, Some e), r)
       ∧ trace_of env (Update r urn id olds news timeout ic preview) w
         = [EvConfigure h news (Some e)]).
Proof.
  unfold outcome_of, trace_of, Update, mustNewReference.
  destruct (validReference urn UnknownID); cbn;
    [|split; [done|intros; inv_elem]].
  destruct (GetProvider r (mkReference urn UnknownID)) as [prov [|]] eqn:Hget;
    cbn; [|split; [done|intros; inv_elem]].
  destruct prov as [h|]; cbn; [|split; [done|intros; inv_elem]].
  apply GetProvider_Some in Hget as Hlk.
  destruct (env _ (PluginConfigure h news) w) as [[e|] w1]; cbn.
  { split; [done|]. intros h' e' Hin. inv_elem. done. }
  destruct (validReference urn id); cbn; [|split; [done|intros; inv_elem]].
  split; [|unfold setProvider, mustNewReference; crunch env; intros; inv_elem].
  destruct (setProvider r (mkReference urn id) (Some h)) as [r1|msg|] eqn:Hset;
    cbn; [|done|].
  2:{ unfold setProvider, mustNewReference in Hset.
      revert Hset. crunch env; done. }
  intros outs st r' [= <- <- <-].
  pose proof Hset as (Hp & Hb & Ha & Hps)%setProvider_Ret. cbn in Hps.
  split_and!; try done. exists h. split_and!; try done.
  - unfold GetProvider. rewrite Hps.
    destruct (aliases r !! urn) as [O|].
    + destruct (decide (mkReference O id = mkReference urn id)) as [->|Hne].
      * by rewrite lookup_insert_eq.
      * by rewrite lookup_insert_ne, lookup_insert_eq.
    + by rewrite lookup_insert_eq.
  - intros Hid. unfold GetProvider. rewrite Hps.
    destruct (aliases r !! urn) as [O|].
    + destruct Hid as [Hid|?]; [|done].
      destruct (decide (mkReference O id = mkReference urn UnknownID))
        as [Heq|Hne]; [congruence|].
      rewrite lookup_insert_ne by done.
      rewrite lookup_insert_ne by congruence. by rewrite Hlk.
    + destruct (decide (id = UnknownID)) as [->|Hne].
      * by rewrite lookup_insert_eq.
      * rewrite lookup_insert_ne by congruence. by rewrite Hlk.
Qed.

End DeleteUpdate.

(** ** More on Diff *)

Section DiffMore.
Context `{Ext : Externals} {World : Type} (env : Env World).

(** [Diff] never changes the registry and closes at most one provider; a
    [DiffConfig] answered with an error is the whole run, on either path:
    nothing is closed, and [Diff] answers the empty diff with
    [Changes = DiffUnknown] together with that error. *)
Theorem Diff_keeps_registry (w : World) (r : Registry) (urn : URN) (id : ID)
  (olds news : PropertyMap) (au : bool) (ic : list string) :
  (∀ res r', outcome_of env (Diff r urn id olds news au ic) w
             = Returned (res, r') → r' = r)
  ∧ (length (closes (trace_of env (Diff r urn id olds news au ic) w)) ≤ 1)%nat
  ∧ (∀ h d e,
       EvDiffConfig h urn olds news au ic (d, Some e)
         ∈ trace_of env (Diff r urn id olds news au ic) w →
       outcome_of env (Diff r urn id olds news au ic) w
       = Returned ((emptyDiffResult, Some e), r)
       ∧ trace_of env (Diff r urn id olds news au ic) w
         = [EvDiffConfig h urn olds news au ic (d, Some e)]).
Proof.
  unfold outcome_of, trace_of, Diff, mustNewReference, GetProvider, Requiref,
    Assertf, on_plugin.
  split_and!.
  - intros res r'. crunch env; intros; by simplify_eq.
  - crunch env; lia.
  - intros h d e. crunch env; intros Hin; inv_elem; done.
Qed.

(** The delete-before-replace fallback: when nothing is registered under
    [(urn, UnknownID)], [Diff] closes nothing, whatever the plugin
    answers, a replacement included; a run that returns a diff asked the
    handle registered under [(urn, id)], once, and hands back the plugin's
    answer as it is; and with nothing registered under [(urn, id)] either,
    or with an empty id, [Diff] is a contract violation that calls
    nothing. *)
Theorem Diff_fallback_never_closes (w : World) (r : Registry) (urn : URN)
  (id : ID) (olds news : PropertyMap) (au : bool) (ic : list string) :
  providers r !! mkReference urn UnknownID = None →
  closes (trace_of env (Diff r urn id olds news au ic) w) = []
  ∧ (∀ d r', outcome_of env (Diff r urn id olds news au ic) w
             = Returned ((d, None), r') →
       ∃ h, providers r !! mkReference urn id = Some (Some h)
            ∧ trace_of env (Diff r urn id olds news au ic) w
              = [EvDiffConfig h urn olds news au ic (d, None)])
  ∧ (id = "" ∨ providers r !! mkReference urn id = None →
     returns (outcome_of env (Diff r urn id olds news au ic) w) = false
     ∧ trace_of env (Diff r urn id olds news au ic) w = []).
Proof.
  intros Hmiss.
  unfold outcome_of, trace_of, Diff, mustNewReference, GetProvider, Requiref,
    Assertf, on_plugin.
  destruct (bool_decide (id ≠ "")) eqn:Hid; cbn.
  2:{ split_and!; done. }
  apply bool_decide_eq_true in Hid.
  destruct (validReference urn UnknownID); cbn; [|split_and!; done].
  rewrite Hmiss; cbn.
  destruct (validReference urn id); cbn; [|split_and!; done].
  destruct (providers r !! mkReference urn id) as [[h|]|] eqn:Hlk; cbn;
    [|split_and!; try done; by intros [?|?]..].
  destruct (env _ (PluginDiffConfig h urn olds news au ic) w)
    as [[d0 [e|]] w1]; cbn; split_and!; try done; try (by intros [?|?]).
  intros d r' [= <- <-]. eauto.
Qed.

(** A replacement unloads the provider: on the path where
    [(urn, UnknownID)] is registered, when the plugin's [DiffConfig] answers
    a diff and no error, [Diff] returns the normalized diff; it calls
    [host.CloseProvider], once and on the handle it asked, exactly when that
    diff requires a replacement; and the registry, which it returns
    unchanged, still has that handle under [(urn, UnknownID)]. *)
Theorem Diff_replace_closes (w : World) (r : Registry) (urn : URN) (id : ID)
  (olds news : PropertyMap) (au : bool) (ic : list string) (h : Handle)
  (d : DiffResult) :
  is_Some (providers r !! mkReference urn UnknownID) →
  EvDiffConfig h urn olds news au ic (d, None)
    ∈ trace_of env (Diff r urn id olds news au ic) w →
  outcome_of env (Diff r urn id olds news au ic) w
  = Returned ((normalized olds news d, None), r)
  ∧ closes (trace_of env (Diff r urn id olds news au ic) w)
    = (if Replace (normalized olds news d) then [Some h] else [])
  ∧ GetProvider r (mkReference urn UnknownID) = (Some h, true).
Proof.
  intros [p Hhit].
  unfold outcome_of, trace_of, Diff, mustNewReference, GetProvider, Requiref,
    Assertf, on_plugin, normalized.
  destruct (bool_decide (id ≠ "")); cbn; [|intros; inv_elem].
  destruct (validReference urn UnknownID); cbn; [|intros; inv_elem].
  rewrite Hhit; cbn. destruct p as [h'|]; cbn; [|intros; inv_elem].
  destruct (env _ (PluginDiffConfig h' urn olds news au ic) w)
    as [[d0 [e|]] w1]; cbn; [intros; inv_elem|].
  destruct (bool_decide (Changes d0 = DiffUnknown)) eqn:Hunk; cbn;
    [destruct (DeepEquals olds news); cbn|];
    destruct (Replace _) eqn:Hrep; cbn;
    try (destruct (env _ (HostCloseProvider (Some h')) w1) as [ce w2]; cbn);
    intros Hin; inv_elem; rewrite Hunk, ?Hrep; done.
Qed.

End DiffMore.

Lemma Diff_fallback_never_closes_witness :
  providers Demo.r_prior !! mkReference Demo.awsURN UnknownID = None
  ∧ closes (trace_of Demo.env
              (Diff Demo.r_prior Demo.awsURN "id0" Demo.v2 Demo.v2_region
                 false []) Demo.w_prior) = []
  ∧ outcome_of Demo.env
      (Diff Demo.r_prior Demo.awsURN "id0" Demo.v2 Demo.v2_region false [])
      Demo.w_prior
    = Returned ((mkDiffResult DiffUnknown ["region"] [] [] false, None),
                Demo.r_prior).
Proof.
  assert (providers Demo.r_prior !! mkReference Demo.awsURN UnknownID = None)
    as Hmiss by reflexivity.
  split; [exact Hmiss|].
  split; [|reflexivity].
  exact (proj1 (Diff_fallback_never_closes Demo.env Demo.w_prior Demo.r_prior
                  Demo.awsURN "id0" Demo.v2 Demo.v2_region false [] Hmiss)).
Defined.

Lemma Diff_replace_closes_witness :
  Replace (normalized Demo.v2 Demo.v2_region
             (mkDiffResult DiffUnknown ["region"] [] [] false)) = true
  ∧ closes (trace_of Demo.env
              (Diff Demo.r_created Demo.awsURN "uuid-0" Demo.v2 Demo.v2_region
                 false []) (Demo.mkWorld 1 1))
    = [Some 0]
  ∧ GetProvider Demo.r_created (mkReference Demo.awsURN UnknownID)
    = (Some 0, true).
Proof.
  assert (is_Some (providers Demo.r_created
                     !! mkReference Demo.awsURN UnknownID)) as Hhit
    by (eexists; reflexivity).
  assert (EvDiffConfig 0 Demo.awsURN Demo.v2 Demo.v2_region false []
            (mkDiffResult DiffUnknown ["region"] [] [] false, None)
          ∈ trace_of Demo.env
              (Diff Demo.r_created Demo.awsURN "uuid-0" Demo.v2 Demo.v2_region
                 false []) (Demo.mkWorld 1 1)) as Hin.
  { apply list_elem_of_here. }
  split; [reflexivity|].
  destruct (Diff_replace_closes Demo.env (Demo.mkWorld 1 1) Demo.r_created
              Demo.awsURN "uuid-0" Demo.v2 Demo.v2_region false [] 0 _
              Hhit Hin) as (_ & Hcl & Hreg).
  split; [exact Hcl|exact Hreg].
Defined.

(** ** More on Create *)

Section CreateMore.
Context `{Ext : Externals} {World : Type} (env : Env World).

(** What a successful [Create] did: it answers the new inputs as outputs
    and [StatusOK]; it sent one [Configure] with the new inputs to the
    handle under [(urn, UnknownID)]; in a preview it drew no UUID and the id
    is empty; otherwise it drew one UUID, which is the id and is not the
    unknown id; and a UUID source that fails makes [Create] answer that
    error with the registry as it was. *)
Theorem Create_effect (w : World) (r : Registry) (urn : URN)
  (news : PropertyMap) (timeout : Z) (preview : bool) :
  (∀ id outs st r',
     outcome_of env (Create r urn news timeout preview) w
     = Returned ((id, outs, st, None), r') →
     outs = news ∧ st = StatusOK
     ∧ ∃ h, GetProvider r (mkReference urn UnknownID) = (Some h, true)
            ∧ GetProvider r' (mkReference urn id) = (Some h, true)
            ∧ if preview
              then id = ""
                   ∧ trace_of env (Create r urn news timeout preview) w
                     = [EvConfigure h news None]
              else id ≠ UnknownID
                   ∧ trace_of env (Create r urn news timeout preview) w
                     = [EvConfigure h news None; EvUuidNewV4 (id, None)])
  ∧ (∀ uuid e,
       EvUuidNewV4 (uuid, Some e)
         ∈ trace_of env (Create r urn news timeout preview) w →
       preview = false
       ∧ outcome_of env (Create r urn news timeout preview) w
         = Returned (("", None, StatusOK, Some e), r)).
Proof.
  unfold outcome_of, trace_of, Create, mustNewReference.
  destruct (validReference urn UnknownID); cbn;
    [|split; [done|intros; inv_elem]].
  destruct (GetProvider r (mkReference urn UnknownID)) as [prov [|]] eqn:Hget;
    cbn; [|split; [done|intros; inv_elem]].
  destruct prov as [h|]; cbn; [|split; [done|intros; inv_elem]].
  destruct (env _ (PluginConfigure h news) w) as [[e|] w1]; cbn.
  { split; [done|]. intros; inv_elem. }
  assert (∀ id (r1 : Registry),
            setProvider r (mkReference urn id) (Some h) = Ret r1 →
            GetProvider r1 (mkReference urn id) = (Some h, true)) as Hset.
  { intros id r1 (_ & _ & _ & Hps)%setProvider_Ret. cbn in Hps.
    unfold GetProvider. rewrite Hps.
    destruct (aliases r !! urn) as [O|].
    - destruct (decide (mkReference O id = mkReference urn id)) as [->|Hne].
      + by rewrite lookup_insert_eq.
      + by rewrite lookup_insert_ne, lookup_insert_eq.
    - by rewrite lookup_insert_eq. }
  destruct preview; cbn.
  - destruct (validReference urn ""); cbn; [|split; [done|intros; inv_elem]].
    destruct (setProvider r (mkReference urn "") (Some h)) as [r1|msg|]
      eqn:Hsp; cbn.
    + split; [|intros; inv_elem].
      intros id outs st r' [= <- <- <- <-]. split_and!; try done.
      exists h. split_and!; try done; by apply Hset.
    + split; [done|intros; inv_elem].
    + unfold setProvider, mustNewReference in Hsp. revert Hsp.
      crunch env; done.
  - destruct (env _ UuidNewV4 w1) as [[uuid [e|]] w2]; cbn.
    { split; [done|]. intros uuid' e' Hin. inv_elem. done. }
    destruct (bool_decide (uuid ≠ UnknownID)) eqn:Hunk; cbn;
      [|split; [done|intros; inv_elem]].
    apply bool_decide_eq_true in Hunk.
    destruct (validReference urn uuid); cbn;
      [|split; [done|intros; inv_elem]].
    destruct (setProvider r (mkReference urn uuid) (Some h)) as [r1|msg|]
      eqn:Hsp; cbn.
    + split; [|intros; inv_elem].
      intros id outs st r' [= <- <- <- <-]. split_and!; try done.
      exists h. split_and!; try done; by apply Hset.
    + split; [done|intros; inv_elem].
    + unfold setProvider, mustNewReference in Hsp. revert Hsp.
      crunch env; done.
Qed.

End CreateMore.

(** ** Which operation calls what *)

Section Footprints.
Context `{Ext : Externals} {World : Type} (env : Env World).

Local Arguments loadProvider : simpl never.

(** Every call an operation makes is in its footprint: only [Check] loads
    plugins (asks the host for a provider, or the workspace to resolve,
    download or install one) and sends [CheckConfig]; only [Diff] sends
    [DiffConfig]; only [Create] and [Update] send [Configure]; only
    [Create] draws a UUID; [Create] and [Update] close nothing; [Same] and
    [RegisterAlias] call nothing. *)
Theorem exec_op_footprint (op : Op) (r : Registry) (w : World) :
  Forall (λ e, footprint op e = true) (trace_of env (exec_op op r) w).
Proof.
  destruct op; unfold exec_op;
    try (rewrite trace_bind_pure by (intros [? ?]; eauto)).
  - unfold trace_of, Check.
    destruct (IsProviderType (URN_Type urn)); cbn; [|constructor].
    destruct (GetProviderVersion news) as [version [e1|]]; cbn; [constructor|].
    destruct (GetProviderDownloadURL news) as [url [e2|]]; cbn; [constructor|].
    rewrite run_bind.
    pose proof (loadProvider_trace env w (GetProviderPackage (URN_Type urn))
                  version url None (builtins r)) as Hld.
    unfold trace_of in Hld.
    assert (∀ t, Forall (λ e, is_loader_call e = true) t →
                 Forall (λ e, footprint (OpCheck urn olds news allowUnknowns
                                           randomSeed) e = true) t) as Himp.
    { intros t Ht. eapply Forall_impl; [exact Ht|]. by intros []. }
    destruct (run env (loadProvider _ _ _ _ _) w)
      as [[[[prov lerr]|msg] w1] t1]; cbn [snd] in Hld; [|by apply Himp].
    apply Himp in Hld.
    match goal with
    | |- context [run env ?p w1] =>
        assert (Forall (λ e, footprint (OpCheck urn olds news allowUnknowns
                                          randomSeed) e = true)
                  (run env p w1).2) as Hk;
        [|destruct (run env p w1) as [[out w2] t2]; cbn [snd] in *;
          by apply Forall_app]
    end.
    unfold setProvider, mustNewReference.
    crunch env; repeat constructor.
  - constructor.
  - unfold trace_of, Diff, mustNewReference, GetProvider, Requiref, Assertf,
      on_plugin.
    crunch env; repeat constructor.
  - unfold trace_of, Same, mustNewReference. crunch env; constructor.
  - unfold trace_of, Create, setProvider, mustNewReference, GetProvider,
      Assertf, on_plugin.
    crunch env; repeat constructor.
  - unfold trace_of, Update, setProvider, mustNewReference, GetProvider,
      Assertf, on_plugin.
    crunch env; repeat constructor.
  - unfold trace_of, Delete, mustNewReference, deleteProvider, Assertf.
    crunch env; repeat constructor.
Qed.

End Footprints.

(** ** What a sequence of operations preserves *)

Section Invariants.
Context `{Ext : Externals} {World : Type} (env : Env World).

Local Arguments loadProvider : simpl never.

Lemma Check_returns (w : World) (r r1 : Registry) (urn : URN)
  (olds news : PropertyMap) (au : bool) (seed : list N)
  (res : PropertyMap * list CheckFailure * option error) :
  outcome_of env (Check r urn olds news au seed) w = Returned (res, r1) →
  (r1 = r ∧ (res.1.2 ≠ [] ∨ res.2 ≠ None))
  ∨ ∃ h inputs,
      res = (inputs, [], None)
      ∧ validReference urn UnknownID = true
      ∧ setProvider r (mkReference urn UnknownID) (Some h) = Ret r1
      ∧ EvCheckConfig h urn olds news au (inputs, [], None)
          ∈ trace_of env (Check r urn olds news au seed) w.
Proof.
  unfold outcome_of, trace_of, Check.
  destruct (IsProviderType (URN_Type urn)); cbn; [|done].
  destruct (GetProviderVersion news) as [version [e1|]]; cbn;
    [intros [= <- <-]; left; split; [done|by left]|].
  destruct (GetProviderDownloadURL news) as [url [e2|]]; cbn;
    [intros [= <- <-]; left; split; [done|by left]|].
  rewrite run_bind.
  destruct (run env (loadProvider _ _ _ _ _) w) as [[[[prov lerr]|msg] w1] t1];
    cbn; [|done].
  destruct lerr as [le|]; cbn; [intros [= <- <-]; left; split; [done|by right]|].
  destruct prov as [h|]; cbn; [|intros [= <- <-]; left; split; [done|by right]].
  destruct (env _ (PluginCheckConfig h urn olds news au) w1)
    as [[[inputs failures] err] w2]; cbn.
  destruct (negb (bool_decide (length failures = 0)) || bool_decide (err ≠ None))
    eqn:Hcond; cbn.
  { destruct (env _ (HostCloseProvider (Some h)) w2) as [ce w3]; cbn.
    intros [= <- <-]. left. split; [done|]. cbn.
    apply orb_true_iff in Hcond as [Hf|He].
    - left. apply negb_true_iff, bool_decide_eq_false in Hf.
      by destruct failures.
    - right. by apply bool_decide_eq_true in He. }
  apply orb_false_iff in Hcond as [Hf He].
  apply negb_false_iff, bool_decide_eq_true in Hf.
  apply bool_decide_eq_false in He.
  assert (failures = []) as -> by (by destruct failures).
  assert (err = None) as -> by (by destruct err as [e|]; [destruct He|]).
  unfold mustNewReference.
  destruct (validReference urn UnknownID); cbn; [|done].
  destruct (setProvider r (mkReference urn UnknownID) (Some h))
    as [r2|msg|] eqn:Hset; cbn.
  - intros [= <- <-]. right. exists h, inputs. split_and!; try done.
    apply elem_of_app. right. apply list_elem_of_here.
  - done.
  - unfold setProvider, mustNewReference in Hset. revert Hset.
    crunch env; done.
Qed.

Lemma exec_op_frame (op : Op) (r r' : Registry) (w : World) :
  outcome_of env (exec_op op r) w = Returned r' →
  isPreview r' = isPreview r ∧ builtins r' = builtins r
  ∧ aliases r' = aliases_after op r.
Proof.
  destruct op; unfold exec_op, outcome_of; cbn [aliases_after].
  - rewrite run_bind.
    destruct (run env (Check _ _ _ _ _ _) w) as [[[[res r1]|msg] w1] t1]
      eqn:Hrun; cbn; [|done].
    intros [= <-].
    assert (outcome_of env (Check r urn olds news allowUnknowns randomSeed) w
            = Returned (res, r1)) as Hout by (unfold outcome_of; by rewrite Hrun).
    apply Check_returns in Hout as [[-> _]|(h & inputs & _ & _ & Hset & _)];
      [done|].
    by apply setProvider_Ret in Hset as (? & ? & ? & _).
  - cbn. intros [= <-]. unfold RegisterAlias.
    by destruct (decide (providerURN ≠ alias)).
  - unfold Diff, mustNewReference, GetProvider, Requiref, Assertf, on_plugin.
    crunch env; intros; by simplify_eq.
  - unfold Same, mustNewReference. crunch env; intros; by simplify_eq.
  - unfold Create, setProvider, mustNewReference, GetProvider, Assertf,
      on_plugin.
    crunch env; intros; by simplify_eq.
  - unfold Update, setProvider, mustNewReference, GetProvider, Assertf,
      on_plugin.
    crunch env; intros; by simplify_eq.
  - unfold Delete, mustNewReference, deleteProvider, Assertf.
    crunch env; intros; by simplify_eq.
Qed.

(** Along any sequence of operations that returns, the preview flag and
    the builtin provider of the registry stay what they were; only
    [RegisterAlias] writes the alias map, so a URN that no [RegisterAlias]
    of the sequence names keeps its alias or its lack of one; an alias once
    recorded is never removed, a self-alias request overwriting nothing;
    and no URN ever becomes its own alias. *)
Theorem exec_ops_invariants (ops : list Op) (r r' : Registry) (w : World) :
  outcome_of env (exec_ops ops r) w = Returned r' →
  isPreview r' = isPreview r ∧ builtins r' = builtins r
  ∧ (∀ N, (∀ O, OpRegisterAlias N O ∉ ops) →
          aliases r' !! N = aliases r !! N)
  ∧ (∀ N, is_Some (aliases r !! N) → is_Some (aliases r' !! N))
  ∧ (no_self_alias r → no_self_alias r').
Proof.
  revert r w. induction ops as [|op ops IH]; intros r w.
  - cbn. intros [= <-]. done.
  - unfold outcome_of. cbn [exec_ops]. rewrite run_bind.
    destruct (run env (exec_op op r) w) as [[[r1|msg] w1] t1] eqn:Hop;
      cbn; [|done].
    assert (outcome_of env (exec_op op r) w = Returned r1) as Hop'
      by (unfold outcome_of; by rewrite Hop).
    apply exec_op_frame in Hop' as (Hp1 & Hb1 & Ha1).
    destruct (run env (exec_ops ops r1) w1) as [[out w2] t2] eqn:Hrest.
    cbn. intros ->.
    assert (outcome_of env (exec_ops ops r1) w1 = Returned r') as Hrest'
      by (unfold outcome_of; by rewrite Hrest).
    apply IH in Hrest' as (Hp & Hb & Hkeep & Hstay & Hself).
    assert (∀ N, (∀ O, op ≠ OpRegisterAlias N O) →
                 aliases r1 !! N = aliases r !! N) as Hfr.
    { intros N HN. rewrite Ha1. destruct op; try done. cbn.
      unfold RegisterAlias. destruct (decide (providerURN ≠ alias)); [|done].
      cbn. apply lookup_insert_ne. intros <-. by apply (HN alias). }
    split_and!.
    + congruence.
    + congruence.
    + intros N HN. rewrite Hkeep.
      * apply Hfr. intros O ->. apply (HN O), list_elem_of_here.
      * intros O Hin. apply (HN O). by apply list_elem_of_further.
    + intros N HN. apply Hstay. rewrite Ha1. destruct op; try done. cbn.
      unfold RegisterAlias. destruct (decide (providerURN ≠ alias)); [|done].
      cbn. destruct (decide (providerURN = N)) as [->|Hne].
      * rewrite lookup_insert_eq. by eexists.
      * by rewrite lookup_insert_ne.
    + intros Hns. apply Hself. intros N. rewrite Ha1.
      destruct op; try apply Hns. cbn.
      unfold RegisterAlias. destruct (decide (providerURN ≠ alias)); [|apply Hns].
      cbn. destruct (decide (providerURN = N)) as [->|Hne].
      * rewrite lookup_insert_eq. congruence.
      * rewrite lookup_insert_ne by done. apply Hns.
Qed.

(** [Check] hands over to the operations that follow: when [Check] returns
    inputs without failures or error, it has asked [CheckConfig] of a
    handle that is now registered under [(urn, UnknownID)]; on the registry
    it returns, [Create] and [Update] of that URN pass their assertion and
    first send [Configure] with their new inputs to that handle, and [Diff]
    with a non-empty id first sends it [DiffConfig]. *)
Theorem Check_then_configure (w : World) (r r1 : Registry) (urn : URN)
  (olds news inputs : PropertyMap) (au : bool) (seed : list N) :
  outcome_of env (Check r urn olds news au seed) w
  = Returned ((inputs, [], None), r1) →
  ∃ h, EvCheckConfig h urn olds news au (inputs, [], None)
         ∈ trace_of env (Check r urn olds news au seed) w
       ∧ GetProvider r1 (mkReference urn UnknownID) = (Some h, true)
       ∧ (∀ w' news' timeout preview,
            ∃ ans, head (trace_of env (Create r1 urn news' timeout preview) w')
                   = Some (EvConfigure h news' ans))
       ∧ (∀ w' id olds' news' timeout ic preview,
            ∃ ans,
              head (trace_of env
                      (Update r1 urn id olds' news' timeout ic preview) w')
              = Some (EvConfigure h news' ans))
       ∧ (∀ w' id olds' news' au' ic,
            id ≠ "" →
            ∃ ans,
              head (trace_of env (Diff r1 urn id olds' news' au' ic) w')
              = Some (EvDiffConfig h urn olds' news' au' ic ans)).
Proof.
  intros Hout.
  apply Check_returns in Hout
    as [[_ [?|?]]|(h & inputs' & Hres & Hv & Hset & Hin)]; [done..|].
  injection Hres as <-.
  assert (providers r1 !! mkReference urn UnknownID = Some (Some h)) as Hlk.
  { apply setProvider_Ret in Hset as (_ & _ & _ & ->). cbn.
    destruct (aliases r !! urn) as [O|].
    - destruct (decide (mkReference O UnknownID = mkReference urn UnknownID))
        as [->|Hne].
      + by rewrite lookup_insert_eq.
      + by rewrite lookup_insert_ne, lookup_insert_eq.
    - by rewrite lookup_insert_eq. }
  exists h. split_and!; [done|by apply GetProvider_Some|..].
  - intros w' news' timeout preview.
    unfold trace_of, Create, mustNewReference. rewrite Hv; cbn.
    unfold GetProvider. rewrite Hlk; cbn.
    destruct (env _ (PluginConfigure h news') w') as [ans w2]; cbn.
    destruct (run env _ w2) as [[? ?] ?]. cbn. eauto.
  - intros w' id olds' news' timeout ic preview.
    unfold trace_of, Update, mustNewReference. rewrite Hv; cbn.
    unfold GetProvider. rewrite Hlk; cbn.
    destruct (env _ (PluginConfigure h news') w') as [ans w2]; cbn.
    destruct (run env _ w2) as [[? ?] ?]. cbn. eauto.
  - intros w' id olds' news' au' ic Hid.
    unfold trace_of, Diff, mustNewReference, Requiref.
    rewrite bool_decide_eq_true_2 by done; cbn. rewrite Hv; cbn.
    unfold GetProvider. rewrite Hlk; cbn.
    destruct (env _ (PluginDiffConfig h urn olds' news' au' ic) w')
      as [ans w2]; cbn.
    destruct (run env _ w2) as [[? ?] ?]. cbn. eauto.
Qed.

End Invariants.

(** ** A registry fresh from NewRegistry *)

Section FreshRegistry.
Context `{Ext : Externals} {World : Type} (env : Env World).

(** A registry fresh from [NewRegistry] waits for [Check]: it has nothing
    under the unknown id of any URN, so [Create] and [Update] are contract
    violations that call nothing, and every [Diff] takes the
    delete-before-replace fallback and closes nothing. *)
Theorem fresh_registry_awaits_Check (prev : list State) (isPreview_ : bool)
  (builtins_ : Provider) (w : World) (reg : Registry) (urn : URN) :
  outcome_of env (NewRegistry prev isPreview_ builtins_) w
  = Returned (Some reg, None) →
  GetProvider reg (mkReference urn UnknownID) = (None, false)
  ∧ (∀ w' news timeout preview,
       returns (outcome_of env (Create reg urn news timeout preview) w') = false
       ∧ trace_of env (Create reg urn news timeout preview) w' = [])
  ∧ (∀ w' id olds news timeout ic preview,
       returns (outcome_of env
                  (Update reg urn id olds news timeout ic preview) w') = false
       ∧ trace_of env (Update reg urn id olds news timeout ic preview) w' = [])
  ∧ (∀ w' id olds news au ic,
       closes (trace_of env (Diff reg urn id olds news au ic) w') = []).
Proof.
  unfold outcome_of at 1, NewRegistry. intros Hout.
  destruct (run env (NewRegistry_loop prev _) w) as [[out w1] tr] eqn:Hrun.
  cbn in Hout; subst out.
  apply NewRegistry_loop_success in Hrun
    as (_ & _ & _ & _ & _ & Hnew & Hold & _).
  assert (providers reg !! mkReference urn UnknownID = None) as Hmiss.
  { destruct (decide (mkReference urn UnknownID ∈ old_provider_refs prev))
      as [Hin|Hnin].
    - by destruct (Hnew _ Hin) as (_ & _ & ? & _).
    - rewrite Hold by done. apply lookup_empty. }
  split_and!.
  - unfold GetProvider. by rewrite Hmiss.
  - intros w' news timeout preview.
    unfold outcome_of, trace_of, Create, mustNewReference.
    destruct (validReference urn UnknownID); cbn; [|done].
    unfold GetProvider. by rewrite Hmiss.
  - intros w' id olds news timeout ic preview.
    unfold outcome_of, trace_of, Update, mustNewReference.
    destruct (validReference urn UnknownID); cbn; [|done].
    unfold GetProvider. by rewrite Hmiss.
  - intros w' id olds news au ic.
    unfold trace_of, Diff, mustNewReference, Requiref, Assertf, on_plugin.
    destruct (bool_decide (id ≠ "")); cbn; [|done].
    destruct (validReference urn UnknownID); cbn; [|done].
    unfold GetProvider at 1. rewrite Hmiss; cbn.
    unfold GetProvider. crunch env; done.
Qed.

(** Deleting a provider of the old state: outside a preview, [Delete] of
    the URN and id of a provider resource [NewRegistry] has registered
    returns [StatusOK], and its one call closes the very handle
    [NewRegistry] configured with that resource's inputs. *)
Theorem NewRegistry_then_Delete (prev : list State) (builtins_ : Provider)
  (w w' : World) (reg : Registry) (res : State) (props : PropertyMap)
  (timeout : Z) :
  outcome_of env (NewRegistry prev false builtins_) w
  = Returned (Some reg, None) →
  res ∈ prev →
  IsProviderType (URN_Type (StateURN res)) = true →
  ∃ h closeErr reg',
    EvConfigure h (Inputs res) None
      ∈ trace_of env (NewRegistry prev false builtins_) w
    ∧ run env (Delete reg (StateURN res) (StateID res) props timeout) w'
      = (Returned ((StatusOK, None), reg'),
         (env _ (HostCloseProvider (Some h)) w').2,
         [EvCloseProvider (Some h) closeErr])
    ∧ GetProvider reg' (mkReference (StateURN res) (StateID res))
      = (None, false).
Proof.
  unfold outcome_of at 1, trace_of, NewRegistry. intros Hout Hin Hty.
  destruct (run env (NewRegistry_loop prev _) w) as [[out w1] tr] eqn:Hrun.
  cbn in Hout; subst out.
  apply NewRegistry_loop_success in Hrun
    as (Hp & _ & _ & _ & _ & Hnew & _ & Hreg).
  destruct (Hreg _ Hin Hty) as (h & Hlk & Hev).
  assert (state_ref res ∈ old_provider_refs prev) as Href.
  { unfold old_provider_refs. apply list_elem_of_omap. exists res.
    by rewrite Hty. }
  destruct (Hnew _ Href) as (_ & _ & _ & Hvalid). cbn in Hp, Hvalid.
  unfold state_ref in Hlk.
  destruct (env _ (HostCloseProvider (Some h)) w') as [ce w2] eqn:Hclose.
  exists h, ce. eexists. split; [done|].
  unfold Delete, mustNewReference, deleteProvider. rewrite Hp, Hvalid; cbn.
  rewrite Hlk; cbn. rewrite Hclose; cbn. split; [reflexivity|].
  unfold GetProvider; cbn. by rewrite lookup_delete_eq.
Qed.

End FreshRegistry.

Lemma fresh_registry_awaits_Check_witness :
  outcome_of Demo.env (NewRegistry Demo.prior false None) Demo.w0
  = Returned (Some Demo.r_prior, None)
  ∧ GetProvider Demo.r_prior (mkReference Demo.awsURN UnknownID) = (None, false)
  ∧ returns (outcome_of Demo.env
               (Create Demo.r_prior Demo.awsURN Demo.v2 0 false) Demo.w_prior)
    = false.
Proof.
  assert (outcome_of Demo.env (NewRegistry Demo.prior false None) Demo.w0
          = Returned (Some Demo.r_prior, None)) as Hout by reflexivity.
  split; [exact Hout|].
  destruct (fresh_registry_awaits_Check Demo.env Demo.prior false None Demo.w0
              Demo.r_prior Demo.awsURN Hout) as (Hget & Hcreate & _).
  split; [exact Hget|].
  exact (proj1 (Hcreate Demo.w_prior Demo.v2 0%Z false)).
Defined.

Lemma NewRegistry_then_Delete_witness :
  outcome_of Demo.env (NewRegistry Demo.prior false None) Demo.w0
  = Returned (Some Demo.r_prior, None)
  ∧ ∃ h closeErr reg',
      EvConfigure h Demo.v2 None
        ∈ trace_of Demo.env (NewRegistry Demo.prior false None) Demo.w0
      ∧ run Demo.env (Delete Demo.r_prior Demo.awsURN "id0" None 0) Demo.w_prior
        = (Returned ((StatusOK, None), reg'), Demo.w_prior,
           [EvCloseProvider (Some h) closeErr]).
Proof.
  assert (outcome_of Demo.env (NewRegistry Demo.prior false None) Demo.w0
          = Returned (Some Demo.r_prior, None)) as Hout by reflexivity.
  assert (mkState Demo.awsURN "id0" Demo.v2 "" ∈ Demo.prior) as Hin.
  { apply list_elem_of_here. }
  assert (IsProviderType (URN_Type Demo.awsURN) = true) as Hty by reflexivity.
  split; [exact Hout|].
  destruct (NewRegistry_then_Delete Demo.env Demo.prior None Demo.w0
              Demo.w_prior Demo.r_prior _ None 0%Z Hout Hin Hty)
    as (h & ce & reg' & Hev & Hrun & _).
  exists h, ce, reg'. split; [exact Hev|exact Hrun].
Defined.

Lemma exec_ops_invariants_witness :
  ∃ r', outcome_of Demo.env (exec_ops Demo.alias_then_check Demo.r0) Demo.w0
        = Returned r'
        ∧ isPreview r' = false ∧ builtins r' = None
        ∧ is_Some (aliases r' !! Demo.awsURN)
        ∧ aliases r' !! Demo.oldURN = None.
Proof.
  assert (∃ r', outcome_of Demo.env (exec_ops Demo.alias_then_check Demo.r0)
                  Demo.w0 = Returned r') as [r' Hout]
    by (eexists; reflexivity).
  exists r'. split; [exact Hout|].
  destruct (exec_ops_invariants Demo.env Demo.alias_then_check Demo.r0 r'
              Demo.w0 Hout) as (Hp & Hb & Hkeep & _ & _).
  split; [exact Hp|]. split; [exact Hb|].
  split.
  - revert Hout. unfold outcome_of. intros Hout.
    assert (outcome_of Demo.env (exec_ops Demo.alias_then_check Demo.r0)
              Demo.w0
            = Returned
                (mkRegistry false
                   (<[mkReference Demo.oldURN "uuid-0" := Some 0]>
                      (<[mkReference Demo.awsURN "uuid-0" := Some 0]>
                         (<[mkReference Demo.oldURN UnknownID := Some 0]>
                            {[ mkReference Demo.awsURN UnknownID := Some 0 ]})))
                   None {[ Demo.awsURN := Demo.oldURN ]})) as Hval
      by reflexivity.
    unfold outcome_of in Hval. rewrite Hval in Hout.
    injection Hout as <-. eexists; reflexivity.
  - rewrite (Hkeep Demo.oldURN); [reflexivity|].
    intros O Hin. unfold Demo.alias_then_check in Hin.
    apply elem_of_cons in Hin as [Hin|Hin]; [discriminate Hin|].
    apply elem_of_cons in Hin as [Hin|Hin]; [discriminate Hin|].
    apply elem_of_cons in Hin as [Hin|Hin]; [discriminate Hin|].
    apply elem_of_cons in Hin as [Hin|Hin]; [discriminate Hin|].
    by apply elem_of_nil in Hin.
Defined.

Lemma Check_then_configure_witness :
  outcome_of Demo.env (Check Demo.r0 Demo.awsURN None Demo.v2 false []) Demo.w0
  = Returned ((Demo.v2, [], None), Demo.r_checked)
  ∧ ∃ h, GetProvider Demo.r_checked (mkReference Demo.awsURN UnknownID)
         = (Some h, true)
         ∧ ∃ ans,
             head (trace_of Demo.env
                     (Create Demo.r_checked Demo.awsURN Demo.v2_reject 0 false)
                     Demo.w_checked)
             = Some (EvConfigure h Demo.v2_reject ans).
Proof.
  assert (outcome_of Demo.env
            (Check Demo.r0 Demo.awsURN None Demo.v2 false []) Demo.w0
          = Returned ((Demo.v2, [], None), Demo.r_checked)) as Hout
    by reflexivity.
  split; [exact Hout|].
  destruct (Check_then_configure Demo.env Demo.w0 Demo.r0 Demo.r_checked
              Demo.awsURN None Demo.v2 Demo.v2 false [] Hout)
    as (h & _ & Hget & Hcreate & _).
  exists h. split; [exact Hget|].
  exact (Hcreate Demo.w_checked Demo.v2_reject 0%Z false).
Defined.

(** Delete and Update on the concrete world. *)
Example demo_delete :
  run Demo.env (Delete Demo.r_created Demo.awsURN "uuid-0" None 0)
    (Demo.mkWorld 1 1)
  = (Returned ((StatusOK, None), Demo.r_checked), Demo.mkWorld 1 1,
     [EvCloseProvider (Some 0) None])
  ∧ returns (outcome_of Demo.env
               (Delete (mkRegistry true (providers Demo.r_created) None ∅)
                  Demo.awsURN "uuid-0" None 0) (Demo.mkWorld 1 1)) = false.
Proof. split; reflexivity. Qed.

Example demo_update :
  run Demo.env
    (Update Demo.r_checked Demo.awsURN "id0" Demo.v2 Demo.v2_region 0 [] false)
    Demo.w_checked
  = (Returned
       ((Demo.v2_region, StatusOK, None),
        mkRegistry false
          (<[mkReference Demo.awsURN "id0" := Some 0]>
             {[ mkReference Demo.awsURN UnknownID := Some 0 ]}) None ∅),
     Demo.w_checked, [EvConfigure 0 Demo.v2_region None])
  ∧ run Demo.env
      (Update Demo.r_checked Demo.awsURN "id0" Demo.v2 Demo.v2_reject 0 [] false)
      Demo.w_checked
    = (Returned
         ((None, StatusUnknown, Some (errorString "configuration rejected")),
          Demo.r_checked),
       Demo.w_checked,
       [EvConfigure 0 Demo.v2_reject
          (Some (errorString "configuration rejected"))]).
Proof. split; reflexivity. Qed.

(** Create during a preview: no UUID, the empty id. *)
Example demo_create_preview :
  run Demo.env (Create Demo.r_checked Demo.awsURN Demo.v2 0 true) Demo.w_checked
  = (Returned
       (("", Demo.v2, StatusOK, None),
        mkRegistry false
          (<[mkReference Demo.awsURN "" := Some 0]>
             {[ mkReference Demo.awsURN UnknownID := Some 0 ]}) None ∅),
     Demo.w_checked, [EvConfigure 0 Demo.v2 None]).
Proof. reflexivity. Qed.
